(** * TACL language support: the server's validator, completion and
      completion-resolve handlers, and the client's hover provider.

    Shallow embedding of [server/src/server.ts] and
    [client/src/extension.ts].  JavaScript strings are sequences of UTF-16
    code units, the regular expression of the validator is run by a
    backtracking matcher in the style of the ECMAScript specification, and
    the handlers thread the server's module-level variables explicitly. *)

From Stdlib Require Import String Ascii.
From stdpp Require Import gmap list.

Set Default Proof Using "Type".
Local Open Scope nat_scope.

(** ** JavaScript strings *)

Module Js.

(** A string is the list of its UTF-16 code units. *)
Definition JsString := list N.

(** A literal of the source, written as a Rocq string. *)
Definition js (s : string) : JsString :=
  map N_of_ascii (list_ascii_of_string s).

(** [s.substring(i, j)] for [i <= j]. *)
Definition substring (s : JsString) (i j : nat) : JsString :=
  take (j - i) (drop i s).

Definition inRange (lo hi c : N) : bool := ((lo <=? c) && (c <=? hi))%N.

(** The class [[A-Z]]. *)
Definition isUpper (c : N) : bool := inRange 65 90 c.

(** ECMAScript's word characters (no [u] or [i] flag): [[A-Za-z0-9_]]. *)
Definition isWordChar (c : N) : bool :=
  inRange 97 122 c || inRange 65 90 c || inRange 48 57 c || (c =? 95)%N.

(** [IsWordChar(e)] of the ECMAScript specification: an index outside the
    input is not a word character. *)
Definition isWordCharAt (c : option N) : bool :=
  match c with
  | Some c => isWordChar c
  | None => false
  end.

End Js.
Import Js.

(** ** Regular expressions: the fragment the validator's pattern uses *)

Module RegExp.

Inductive Atom :=
| CharRange (lo hi : N).                  (* [lo-hi] *)

Inductive Term :=
| AssertWordBoundary                          (* \b *)
| AtLeast (a : Atom) (min : nat).          (* a{min,}, greedy *)

Definition Pattern := list Term.

(** The matcher's state: the index reached, the code unit before it and
    the input from it on. *)
Record MatchState := mkState {
  endIndex : nat;
  before : option N;
  ahead : list N
}.

Definition Continuation := MatchState -> option MatchState.

Definition atomTest (a : Atom) (c : N) : bool :=
  match a with
  | CharRange lo hi => inRange lo hi c
  end.

(** [\b]: exactly one of the two neighbours is a word character. *)
Definition isWordBoundary (x : MatchState) : bool :=
  xorb (isWordCharAt (before x)) (isWordCharAt (head (ahead x))).

(** Greedy repetition of a one-character atom: take one more character
    first, and fall back to the continuation when that fails and [min]
    repetitions are done. *)
Fixpoint repeatMatcher (a : Atom) (min : nat) (c : Continuation)
    (count idx : nat) (prev : option N) (rest : list N) : option MatchState :=
  let stop := if min <=? count then c (mkState idx prev rest) else None in
  match rest with
  | ch :: rest' =>
      if atomTest a ch then
        match repeatMatcher a min c (S count) (S idx) (Some ch) rest' with
        | Some y => Some y
        | None => stop
        end
      else stop
  | [] => stop
  end.

Definition termMatcher (t : Term) (c : Continuation) : Continuation :=
  fun x =>
    match t with
    | AssertWordBoundary => if isWordBoundary x then c x else None
    | AtLeast a min => repeatMatcher a min c 0 (endIndex x) (before x) (ahead x)
    end.

Fixpoint patternMatcher (p : Pattern) (c : Continuation) : Continuation :=
  match p with
  | [] => c
  | t :: p' => termMatcher t (patternMatcher p' c)
  end.

(** The state of an attempt that starts at index [i] of [text]. *)
Definition stateAt (text : JsString) (i : nat) : MatchState :=
  mkState i (match i with 0 => None | S k => text !! k end) (drop i text).

(** One attempt at index [i]: the end index of the match, if any. *)
Definition matchAt (p : Pattern) (text : JsString) (i : nat) : option nat :=
  endIndex <$> patternMatcher p Some (stateAt text i).

(** [RegExpBuiltinExec] for a global pattern: attempts at [lastIndex],
    [lastIndex + 1], ... up to the length of the input.  The result is the
    match's [index] and the new [lastIndex] (the end of the match); a failure
    is [null] (and [lastIndex] goes back to 0). *)
Fixpoint execFrom (p : Pattern) (text : JsString) (attempts i : nat)
    : option (nat * nat) :=
  match attempts with
  | 0 => None
  | S n =>
      match matchAt p text i with
      | Some e => Some (i, e)
      | None => execFrom p text n (S i)
      end
  end.

Definition exec (p : Pattern) (text : JsString) (lastIndex : nat)
    : option (nat * nat) :=
  execFrom p text (S (length text) - lastIndex) lastIndex.

End RegExp.
Import RegExp.

(** ** Text documents of the language-server library *)

Module TextDoc.

Record Position := mkPosition { line : nat; character : nat }.

Record Range := mkRange { range_start : Position; range_end : Position }.

(** What the server uses of a [TextDocument]. *)
Record TextDocument := mkTextDocument {
  uri : JsString;
  getText : JsString;
  positionAt : nat -> Position
}.

(** The library's [FullTextDocument]: a line starts after each [\r\n],
    [\r] or [\n]. *)
Definition isEOL (c : N) : bool := ((c =? 13) || (c =? 10))%N.

Fixpoint lineOffsetsFrom (i : nat) (rest : list N) : list nat :=
  match rest with
  | [] => []
  | c :: rest' =>
      if (c =? 13)%N then
        match rest' with
        | c' :: rest'' =>
            if (c' =? 10)%N then (i + 2) :: lineOffsetsFrom (i + 2) rest''
            else (i + 1) :: lineOffsetsFrom (i + 1) rest'
        | [] => [i + 1]
        end
      else if (c =? 10)%N then (i + 1) :: lineOffsetsFrom (i + 1) rest'
      else lineOffsetsFrom (i + 1) rest'
  end.

Definition computeLineOffsets (text : JsString) : list nat :=
  0 :: lineOffsetsFrom 0 text.

Fixpoint ensureBeforeEOL (text : JsString) (lineOffset offset : nat) : nat :=
  match offset with
  | 0 => 0
  | S k =>
      if (lineOffset <? offset) && from_option isEOL false (text !! k)
      then ensureBeforeEOL text lineOffset k
      else offset
  end.

(** The library finds the line by a binary search for the first line offset
    beyond [offset]; the offsets increase, so that is the number of offsets
    up to [offset]. *)
Definition fullPositionAt (text : JsString) (offset : nat) : Position :=
  let offset := Nat.min offset (length text) in
  let lineOffsets := computeLineOffsets text in
  let low := length (filter (fun o => o <= offset) lineOffsets) in
  let line := low - 1 in
  let lineOffset := default 0 (lineOffsets !! line) in
  mkPosition line (ensureBeforeEOL text lineOffset offset - lineOffset).

Definition FullTextDocument (uri text : JsString) : TextDocument :=
  mkTextDocument uri text (fullPositionAt text).

End TextDoc.
Import TextDoc.

(** ** Completions of calls: a value, or a thrown error *)

Inductive JsError := TypeError.

Inductive Completion (A : Type) :=
| Normal (a : A)
| Throw (e : JsError).
Arguments Normal {A} a.
Arguments Throw {A} e.

(** ** The server: [server/src/server.ts] *)

Module Server.

Inductive DiagnosticSeverity := Error | Warning | Information | Hint.

Record Location := mkLocation { loc_uri : JsString; loc_range : Range }.

Record DiagnosticRelatedInformation := mkRelated {
  location : Location;
  related_message : JsString
}.

Record Diagnostic := mkDiagnostic {
  severity : DiagnosticSeverity;
  range : Range;
  message : JsString;
  source : JsString;
  relatedInformation : option (list DiagnosticRelatedInformation)
}.

Record PublishDiagnosticsParams := mkPublish {
  publish_uri : JsString;
  diagnostics : list Diagnostic
}.

Record ExampleSettings := mkSettings { maxNumberOfProblems : Z }.

Definition defaultSettings : ExampleSettings := mkSettings 1000.

(** The module-level variables.  A cached [Thenable] is kept by the value it
    resolves to; [None] there is [null]. *)
Record ServerState := mkServer {
  hasConfigurationCapability : bool;
  hasDiagnosticRelatedInformationCapability : bool;
  globalSettings : ExampleSettings;
  documentSettings : gmap JsString (option ExampleSettings)
}.

Definition setDocumentSettings (m : gmap JsString (option ExampleSettings))
    (s : ServerState) : ServerState :=
  mkServer (hasConfigurationCapability s)
           (hasDiagnosticRelatedInformationCapability s)
           (globalSettings s) m.

Definition setGlobalSettings (g : ExampleSettings) (s : ServerState)
    : ServerState :=
  mkServer (hasConfigurationCapability s)
           (hasDiagnosticRelatedInformationCapability s)
           g (documentSettings s).

(** The state after the module is loaded and [onInitialize] has read the
    client's capabilities. *)
Definition initialState (configuration relatedInformation : bool)
    : ServerState :=
  mkServer configuration relatedInformation defaultSettings ∅.

Section Handlers.

(** The client's answer to [workspace/configuration] for a scope URI and the
    section [languageServerExample]; [None] is [null]. *)
Variable getConfiguration : JsString -> option ExampleSettings.

Definition getDocumentSettings (resource : JsString) (s : ServerState)
    : ServerState * option ExampleSettings :=
  if negb (hasConfigurationCapability s) then (s, Some (globalSettings s))
  else
    match documentSettings s !! resource with
    | Some result => (s, result)
    | None =>
        let result := getConfiguration resource in
        (setDocumentSettings (<[resource := result]> (documentSettings s)) s,
         result)
    end.

(** [/\b[A-Z]{2,}\b/g] *)
Definition pattern : Pattern :=
  [AssertWordBoundary; AtLeast (CharRange 65 90) 2; AssertWordBoundary].

Definition makeDiagnostic (related : bool) (textDocument : TextDocument)
    (index : nat) (m0 : JsString) : Diagnostic :=
  let r := mkRange (positionAt textDocument index)
                   (positionAt textDocument (index + length m0)) in
  mkDiagnostic Warning r
    (m0 ++ js " is all uppercase. Can you please fix that")
    (js "ex")
    (if related then
       Some [mkRelated (mkLocation (uri textDocument) r) (js "Spelling matters");
             mkRelated (mkLocation (uri textDocument) r)
                       (js "Particularly for names")]
     else None).

(** The [while] loop.  [exec] runs before the cap is read, so [settings] is
    dereferenced only once a match is found.  [None] is a loop that has not
    finished within [fuel] iterations. *)
Fixpoint validateLoop (related : bool) (textDocument : TextDocument)
    (settings : option ExampleSettings) (fuel lastIndex problems : nat)
    (acc : list Diagnostic) : option (Completion (list Diagnostic)) :=
  match fuel with
  | 0 => None
  | S fuel' =>
      match exec pattern (getText textDocument) lastIndex with
      | None => Some (Normal acc)
      | Some (index, lastIndex') =>
          match settings with
          | None => Some (Throw TypeError)
          | Some st =>
              if (Z.of_nat problems <? maxNumberOfProblems st)%Z then
                let m0 := substring (getText textDocument) index lastIndex' in
                validateLoop related textDocument settings fuel' lastIndex'
                  (S problems)
                  (acc ++ [makeDiagnostic related textDocument index m0])
              else Some (Normal acc)
          end
      end
  end.

(** [validateTaclDocument]: the new state and the notification handed to
    [connection.sendDiagnostics], or the error that rejects the promise. *)
Definition validateTaclDocument (textDocument : TextDocument) (s : ServerState)
    : ServerState * option (Completion PublishDiagnosticsParams) :=
  let '(s', settings) := getDocumentSettings (uri textDocument) s in
  let fuel := S (length (getText textDocument)) in
  (s',
   match validateLoop (hasDiagnosticRelatedInformationCapability s')
           textDocument settings fuel 0 0 [] with
   | Some (Normal ds) => Some (Normal (mkPublish (uri textDocument) ds))
   | Some (Throw e) => Some (Throw e)
   | None => None
   end).

(** [onDidChangeConfiguration], before it revalidates the open documents:
    [languageServerExample] is [change.settings.languageServerExample], [None]
    when it is missing. *)
Definition onDidChangeConfiguration
    (languageServerExample : option ExampleSettings) (s : ServerState)
    : ServerState :=
  if hasConfigurationCapability s then setDocumentSettings ∅ s
  else setGlobalSettings (default defaultSettings languageServerExample) s.

Definition onDidClose (closed : TextDocument) (s : ServerState) : ServerState :=
  setDocumentSettings (delete (uri closed) (documentSettings s)) s.

End Handlers.

(** *** Completion *)

Inductive CompletionItemKind :=
| KindText | KindMethod | KindFunction | KindConstructor | KindField
| KindVariable | KindClass | KindInterface | KindModule | KindProperty
| KindUnit | KindValue | KindEnum | KindKeyword | KindSnippet | KindColor
| KindFile | KindReference | KindFolder | KindEnumMember | KindConstant
| KindStruct | KindEvent | KindOperator | KindTypeParameter.

(** A field that is [None] is [undefined]. *)
Record CompletionItem := mkItem {
  label : JsString;
  kind : option CompletionItemKind;
  data : Z;
  detail : option JsString;
  documentation : option JsString
}.

Record TextDocumentPositionParams := mkParams {
  params_uri : JsString;
  params_position : Position
}.

Definition item (l : string) (k : CompletionItemKind) (d : Z) : CompletionItem :=
  mkItem (js l) (Some k) d None None.

Definition onCompletion (_textDocumentPosition : TextDocumentPositionParams)
    : list CompletionItem :=
  [
    item "Given" KindProperty 1;
    item "actions" KindProperty 2;
    item "Then" KindProperty 3;
    item "And" KindProperty 4;
    item "do" KindFunction 5;
    item "click" KindClass 6;
    item "type" KindFunction 7;
    item "check" KindFunction 8;
    item "uncheck" KindFunction 9;
    item "fill" KindFunction 10;
    item "assert" KindProperty 11;
    item "press" KindFunction 12;
    item "double_click" KindFunction 13;
    item "name" KindVariable 14;
    item "value" KindVariable 15;
    item "description" KindVariable 16;
    item "scenarios" KindVariable 17;
    item "steps" KindVariable 18;
    item "focus" KindFunction 19;
    item "enabled" KindVariable 20;
    item "empty" KindVariable 21;
    item "editable" KindVariable 22;
    item "hidden" KindVariable 23;
    item "visible" KindVariable 24;
    item "available" KindVariable 25;
    item "empty" KindVariable 26;
    item "contains" KindVariable 27;
    item "title" KindVariable 28;
    item "checked" KindFunction 29
  ].

(** A row of [config/keyword.json]. *)
Record KeywordEntry := mkKeyword {
  keyword_label : JsString;
  keyword_detail : JsString;
  keyword_documentation : JsString
}.

(** [a[i]] for an array and an integer: [undefined] outside the array. *)
Definition arrayGet {A} (a : list A) (i : Z) : option A :=
  if (i <? 0)%Z then None else a !! Z.to_nat i.

Section Resolve.

(** The array of [config/keyword.json], loaded with the module. *)
Variable keywordDes : list KeywordEntry.

(** [temp.detail] on [undefined] throws. *)
Definition onCompletionResolve (item : CompletionItem)
    : Completion CompletionItem :=
  let count := (data item - 1)%Z in
  match arrayGet keywordDes count with
  | None => Throw TypeError
  | Some temp =>
      Normal (mkItem (label item) (kind item) (data item)
                     (Some (keyword_detail temp))
                     (Some (keyword_documentation temp)))
  end.

End Resolve.

End Server.
Import Server.

(** ** The client: [client/src/extension.ts] *)

Module Client.

(** A row of [config/hover.json]. *)
Record HoverEntry := mkHoverEntry {
  hover_label : JsString;
  hover_documentation : JsString
}.

(** What [provideHover] uses of the editor's document: [getText] of no range
    is the whole text. *)
Record EditorDocument := mkEditorDocument {
  fsPath : JsString;
  editorGetText : option Range -> JsString;
  getWordRangeAtPosition : Position -> option Range
}.

Record Hover := mkHover { contents : list JsString }.

Record CancellationToken := mkToken { isCancellationRequested : bool }.

Definition endsWith (s suffix : JsString) : bool :=
  bool_decide (drop (length s - length suffix) s = suffix).

Section ProvideHover.

(** Node's [path.dirname]. *)
Variable dirname : JsString -> JsString.

(** The array of [config/hover.json], loaded with the module. *)
Variable hoverDes : list HoverEntry.

(** The lines written by [console.log]. *)
Definition classify (location : JsString) : list JsString :=
  if endsWith location (js "features") then [js "Its a feature file"]
  else if endsWith location (js "steps") then [js "Its a step file"]
  else if endsWith location (js "elements") then [js "Its an elements file"]
  else if endsWith location (js "data") then [js "Its a dataset file"]
  else [].

(** The body of the [forEach] callback, on the variable it assigns. *)
Definition visit (word : JsString) (return_content : JsString)
    (element : HoverEntry) : JsString :=
  if bool_decide (hover_label element = word) then hover_documentation element
  else return_content.

Definition wordAt (document : EditorDocument) (position : Position) : JsString :=
  editorGetText document (getWordRangeAtPosition document position).

(** [provideHover]: the console's lines and the hover returned. *)
Definition provideHover (document : EditorDocument) (position : Position)
    (token : CancellationToken) : list JsString * Hover :=
  let location := dirname (fsPath document) in
  let log := classify location in
  let word := wordAt document position in
  let return_content := foldl (visit word) [] hoverDes in
  (log, mkHover [return_content]).

End ProvideHover.

End Client.
Import Client.

(** ** The session: initialisation, the open documents and the events *)

Module Lifecycle.

(** The client capabilities [onInitialize] reads; a field that is [None] is
    missing. *)
Record WorkspaceClientCapabilities := mkWorkspaceCapabilities {
  configuration : option bool;
  workspaceFolders : option bool
}.

Record PublishDiagnosticsClientCapabilities := mkPublishCapabilities {
  relatedInformationSupport : option bool
}.

Record TextDocumentClientCapabilities := mkTextDocumentCapabilities {
  publishDiagnostics : option PublishDiagnosticsClientCapabilities
}.

Record ClientCapabilities := mkCapabilities {
  workspace : option WorkspaceClientCapabilities;
  textDocument : option TextDocumentClientCapabilities
}.

Record InitializeParams := mkInitializeParams {
  capabilities : ClientCapabilities
}.

(** [!!(o && o.field)] for an optional object and an optional boolean. *)
Definition has {A} (o : option A) (field : A -> option bool) : bool :=
  match o with
  | Some x => default false (field x)
  | None => false
  end.

(** [!!(o && o.inner && o.inner.field)]. *)
Definition has2 {A B} (o : option A) (inner : A -> option B)
    (field : B -> option bool) : bool :=
  match o with
  | Some x => has (inner x) field
  | None => false
  end.

Inductive TextDocumentSyncKind := SyncNone | SyncFull | SyncIncremental.

Record ServerCapabilities := mkServerCapabilities {
  textDocumentSync : TextDocumentSyncKind;
  resolveProvider : bool;
  workspaceFoldersSupported : option bool
}.

Record InitializeResult := mkInitializeResult {
  result_capabilities : ServerCapabilities
}.

(** The server's variables together with [hasWorkspaceFolderCapability]. *)
Record Session := mkSession {
  server : ServerState;
  hasWorkspaceFolderCapability : bool
}.

(** The variables as the module's top level leaves them. *)
Definition loaded : Session :=
  mkSession (mkServer false false defaultSettings ∅) false.

Definition onInitialize (params : InitializeParams) (x : Session)
    : Session * InitializeResult :=
  let capabilities := capabilities params in
  let configurationCapability := has (workspace capabilities) configuration in
  let workspaceFolderCapability := has (workspace capabilities) workspaceFolders in
  let relatedInformationCapability :=
    has2 (textDocument capabilities) publishDiagnostics
         relatedInformationSupport in
  (mkSession
     (mkServer configurationCapability relatedInformationCapability
               (globalSettings (server x)) (documentSettings (server x)))
     workspaceFolderCapability,
   mkInitializeResult
     (mkServerCapabilities SyncIncremental true
        (if workspaceFolderCapability then Some true else None))).

Section Events.

Variable getConfiguration : JsString -> option ExampleSettings.

(** [documents.all().forEach(validateTaclDocument)]: each call reads or fills
    the settings cache before it suspends, in the order of the list; the
    completions are listed in that order too. *)
Definition revalidate (all : list TextDocument) (s : ServerState)
    : ServerState * list (option (Completion PublishDiagnosticsParams)) :=
  foldl (fun acc textDocument =>
           let '(s', r) := validateTaclDocument getConfiguration textDocument acc.1 in
           (s', acc.2 ++ [r]))
        (s, []) all.

(** The whole handler of [connection.onDidChangeConfiguration]. *)
Definition didChangeConfiguration (languageServerExample : option ExampleSettings)
    (all : list TextDocument) (s : ServerState)
    : ServerState * list (option (Completion PublishDiagnosticsParams)) :=
  revalidate all (onDidChangeConfiguration languageServerExample s).

(** [documents.onDidChangeContent] *)
Definition onDidChangeContent (changed : TextDocument) (s : ServerState)
    : ServerState * option (Completion PublishDiagnosticsParams) :=
  validateTaclDocument getConfiguration changed s.

End Events.

(** The document manager's open documents, by URI, beside the server's
    variables. *)
Record World := mkWorld {
  documents : gmap JsString TextDocument;
  variables : ServerState
}.

(** What the manager and the connection deliver: a document opened, an open
    document changed, an open document closed (the manager drops the last two
    for a URI it does not hold), the configuration changed. *)
Inductive Event :=
| Opened (textDocument : TextDocument)
| Changed (textDocument : TextDocument)
| Closed (resource : JsString)
| ConfigurationChanged (languageServerExample : option ExampleSettings).

(** [documents.all()] *)
Definition all (w : World) : list TextDocument :=
  (map_to_list (documents w)).*2.

(** One event, with the answers the client would give to
    [workspace/configuration] while it is handled. *)
Definition deliver (getConfiguration : JsString -> option ExampleSettings)
    (e : Event) (w : World) : World :=
  match e with
  | Opened d =>
      mkWorld (<[uri d := d]> (documents w))
              (onDidChangeContent getConfiguration d (variables w)).1
  | Changed d =>
      match documents w !! uri d with
      | Some _ =>
          mkWorld (<[uri d := d]> (documents w))
                  (onDidChangeContent getConfiguration d (variables w)).1
      | None => w
      end
  | Closed resource =>
      match documents w !! resource with
      | Some d => mkWorld (delete resource (documents w))
                          (onDidClose d (variables w))
      | None => w
      end
  | ConfigurationChanged x =>
      mkWorld (documents w)
              (didChangeConfiguration getConfiguration x (all w) (variables w)).1
  end.

Definition run (trace : list ((JsString -> option ExampleSettings) * Event))
    (w : World) : World :=
  foldl (fun w step => deliver step.1 step.2 w) w trace.

End Lifecycle.
Import Lifecycle.

(** ** What the specification says the validator reports *)

Module Spec.

(** A word boundary at index [p]: exactly one of [text[p-1]] and [text[p]]
    is a word character. *)
Definition wordBoundaryAt (text : JsString) (p : nat) : bool :=
  xorb (isWordCharAt (match p with 0 => None | S k => text !! k end))
       (isWordCharAt (text !! p)).

(** [text[i..j)] is a maximal run of two or more uppercase letters, bounded
    by word boundaries. *)
Record UppercaseRun (text : JsString) (i j : nat) : Prop := {
  run_long : i + 2 <= j;
  run_inside : j <= length text;
  run_upper : forall k, i <= k < j -> exists c, text !! k = Some c /\ isUpper c = true;
  run_maximal_left : forall k c, i = S k -> text !! k = Some c -> isUpper c = false;
  run_maximal_right : forall c, text !! j = Some c -> isUpper c = false;
  run_bounded_left : wordBoundaryAt text i = true;
  run_bounded_right : wordBoundaryAt text j = true
}.

(** The runs are listed left to right and do not overlap. *)
Definition LeftToRight (runs : list (nat * nat)) : Prop :=
  forall k a b, runs !! k = Some a -> runs !! S k = Some b -> a.2 <= b.1.

(** The diagnostic the specification asks for the run [text[i..j)]. *)
Definition Reports (textDocument : TextDocument) (run : nat * nat)
    (d : Diagnostic) : Prop :=
  severity d = Warning /\
  range d = mkRange (positionAt textDocument run.1)
                    (positionAt textDocument run.2) /\
  message d = substring (getText textDocument) run.1 run.2
                ++ js " is all uppercase. Can you please fix that" /\
  source d = js "ex".

End Spec.
Import Spec.

(** ** Definitions used by the proofs *)

(** The number of uppercase letters a string starts with. *)
Fixpoint upperPrefix (l : list N) : nat :=
  match l with
  | c :: l' => if isUpper c then S (upperPrefix l') else 0
  | [] => 0
  end.

(** What follows the repetition in the pattern: [\b], then the end. *)
Definition afterRun : Continuation := patternMatcher [AssertWordBoundary] Some.

(** The matches the loop would visit with no cap, from [lastIndex] on. *)
Fixpoint matchesFrom (text : JsString) (fuel lastIndex : nat) : list (nat * nat) :=
  match fuel with
  | 0 => []
  | S fuel' =>
      match exec pattern text lastIndex with
      | None => []
      | Some (index, lastIndex') =>
          (index, lastIndex') :: matchesFrom text fuel' lastIndex'
      end
  end.

Definition allMatches (text : JsString) : list (nat * nat) :=
  matchesFrom text (S (length text)) 0.

Definition diagnosticOf (related : bool) (textDocument : TextDocument)
    (run : nat * nat) : Diagnostic :=
  makeDiagnostic related textDocument run.1
    (substring (getText textDocument) run.1 run.2).

Definition apiDocument (u : JsString) : TextDocument :=
  FullTextDocument u (js "The API returns OK").

(** Concrete inputs. *)

Definition sampleUri : JsString := js "file:///project/steps/login.tacl".

Definition sampleDocument : TextDocument :=
  FullTextDocument sampleUri (js "The API returns OK").

Definition noConfiguration : JsString -> option ExampleSettings := fun _ => None.

Definition sampleKeywords : list KeywordEntry :=
  [mkKeyword (js "Given") (js "Step keyword") (js "Opens a precondition step")].

Definition sampleHovers : list HoverEntry :=
  [mkHoverEntry (js "visible") (js "The element is displayed");
   mkHoverEntry (js "hidden") (js "The element is not displayed");
   mkHoverEntry (js "visible") (js "The element can be seen")].

Definition sampleEditorDocument : EditorDocument :=
  mkEditorDocument (js "/project/steps/login.tacl")
    (fun r => match r with
              | Some _ => js "visible"
              | None => js "assert visible"
              end)
    (fun _ => Some (mkRange (mkPosition 0 7) (mkPosition 0 14))).

Definition sampleDirname : JsString -> JsString := fun _ => js "/project/steps".

Definition missEditorDocument : EditorDocument :=
  mkEditorDocument (js "/project/steps/login.tacl")
    (fun _ => js "zzzNotAWord")
    (fun _ => Some (mkRange (mkPosition 0 0) (mkPosition 0 11))).

Definition zeroSettings : JsString -> option ExampleSettings :=
  fun _ => Some (mkSettings 0).

Definition emptyDocument : TextDocument := FullTextDocument sampleUri [].

Definition capSettings (cap : Z) : JsString -> option ExampleSettings :=
  fun _ => Some (mkSettings cap).

Definition otherDocument : TextDocument :=
  FullTextDocument (js "file:///project/data/users.tacl") (js "ID of USER_1").

Definition sampleTrace : list ((JsString -> option ExampleSettings) * Event) :=
  [(capSettings 1, Opened sampleDocument);
   (capSettings 2, ConfigurationChanged None);
   (capSettings 3, Changed emptyDocument);
   (capSettings 4, Opened otherDocument);
   (capSettings 5, Closed sampleUri)].

Definition sampleTrace' : list ((JsString -> option ExampleSettings) * Event) :=
  [(noConfiguration, Opened sampleDocument);
   (capSettings 0, ConfigurationChanged None);
   (noConfiguration, Changed emptyDocument);
   (capSettings 8, Opened otherDocument);
   (capSettings 9, Closed sampleUri)].

Definition noCapabilities : InitializeParams :=
  mkInitializeParams (mkCapabilities None None).


(** The manager files each open document under its own URI. *)
Definition KeyedByUri (docs : gmap JsString TextDocument) : Prop :=
  forall k d, docs !! k = Some d -> uri d = k.

(** ** The matcher on the validator's pattern *)

Section Matcher.

Local Arguments Nat.leb : simpl never.

Lemma isUpper_isWordChar c : isUpper c = true -> isWordChar c = true.
Proof.
  unfold isUpper, isWordChar. intros ->. by rewrite orb_true_r.
Qed.

Lemma upperPrefix_length l : upperPrefix l <= length l.
Proof. induction l as [|c l IH]; simpl; [lia|]. destruct (isUpper c); simpl; lia. Qed.

Lemma upperPrefix_inside l k :
  k < upperPrefix l -> exists c, l !! k = Some c /\ isUpper c = true.
Proof.
  revert k. induction l as [|c l IH]; simpl; intros k Hk; [lia|].
  destruct (isUpper c) eqn:Hc; [|lia].
  destruct k as [|k]; simpl; [eauto|]. apply IH. lia.
Qed.

Lemma upperPrefix_stop l c :
  l !! upperPrefix l = Some c -> isUpper c = false.
Proof.
  induction l as [|c' l IH]; simpl; [done|].
  destruct (isUpper c') eqn:Hc; simpl; [done|]. by intros [= <-].
Qed.

(** A run of uppercase letters of length [n] that cannot be extended is the
    uppercase prefix. *)
Lemma upperPrefix_unique l n :
  (forall k, k < n -> exists c, l !! k = Some c /\ isUpper c = true) ->
  (forall c, l !! n = Some c -> isUpper c = false) ->
  upperPrefix l = n.
Proof.
  revert n. induction l as [|c l IH]; intros n Hin Hout; simpl.
  - destruct n as [|n]; [done|]. destruct (Hin 0) as (c & Hc & _); [lia|done].
  - destruct n as [|n].
    + by rewrite (Hout c).
    + destruct (Hin 0) as (c' & [= <-] & ->); [lia|].
      f_equal. apply IH.
      * intros k Hk. apply (Hin (S k)). lia.
      * intros c'. apply (Hout c').
Qed.

Lemma afterRun_word idx prev rest :
  isWordCharAt prev = true ->
  endIndex <$> afterRun (mkState idx prev rest) =
  if negb (isWordCharAt (rest !! 0)) then Some idx else None.
Proof.
  intros Hprev. unfold afterRun. cbn [patternMatcher termMatcher].
  unfold isWordBoundary. cbn [before ahead]. rewrite Hprev.
  replace (head rest) with (rest !! 0) by (by destruct rest).
  by destruct (isWordCharAt (rest !! 0)).
Qed.

Lemma repeatMatcher_upper rest : forall count idx prev,
  (0 < count -> isWordCharAt prev = true) ->
  endIndex <$> repeatMatcher (CharRange 65 90) 2 afterRun count idx prev rest =
  if (2 <=? count + upperPrefix rest)
     && negb (isWordCharAt (rest !! upperPrefix rest))
  then Some (idx + upperPrefix rest) else None.
Proof.
  induction rest as [|ch rest IH]; intros count idx prev Hprev.
  - cbn [repeatMatcher upperPrefix]. rewrite !Nat.add_0_r.
    destruct (2 <=? count) eqn:Hc; [|done].
    apply Nat.leb_le in Hc. rewrite afterRun_word by (apply Hprev; lia). done.
  - cbn [repeatMatcher upperPrefix atomTest]. fold (isUpper ch).
    destruct (isUpper ch) eqn:Hch.
    + specialize (IH (S count) (S idx) (Some ch)).
      rewrite <- !Nat.add_succ_comm. 
      change ((ch :: rest) !! S (upperPrefix rest)) with (rest !! upperPrefix rest).
      destruct (repeatMatcher _ _ _ (S count) _ _ rest) as [y|] eqn:Hrec.
      * apply IH. intros _. simpl. by apply isUpper_isWordChar.
      * rewrite <- IH by (intros _; simpl; by apply isUpper_isWordChar).
        destruct (2 <=? count) eqn:Hc; [|done].
        apply Nat.leb_le in Hc. rewrite afterRun_word by (apply Hprev; lia).
        simpl. by rewrite (isUpper_isWordChar ch).
    + rewrite !Nat.add_0_r.
      destruct (2 <=? count) eqn:Hc; [|done].
      apply Nat.leb_le in Hc. by rewrite afterRun_word by (apply Hprev; lia).
Qed.

(** One attempt of the pattern, in closed form. *)
Lemma matchAt_pattern text i :
  matchAt pattern text i =
  let n := upperPrefix (drop i text) in
  if wordBoundaryAt text i && (2 <=? n) && negb (isWordCharAt (text !! (i + n)))
  then Some (i + n) else None.
Proof.
  unfold matchAt, pattern. cbn [patternMatcher termMatcher].
  replace (isWordBoundary (stateAt text i)) with (wordBoundaryAt text i).
  2:{ unfold isWordBoundary, wordBoundaryAt, stateAt. cbn [before ahead].
      f_equal. f_equal. transitivity (drop i text !! 0).
      - by rewrite lookup_drop, Nat.add_0_r.
      - by destruct (drop i text). }
  destruct (wordBoundaryAt text i); [|done]. cbn [andb stateAt endIndex before ahead].
  change (termMatcher AssertWordBoundary Some) with afterRun.
  rewrite repeatMatcher_upper by lia.
  by rewrite lookup_drop.
Qed.

Lemma not_word_not_upper c : isWordChar c = false -> isUpper c = false.
Proof.
  intros Hw. destruct (isUpper c) eqn:Hu; [|done].
  by rewrite (isUpper_isWordChar c Hu) in Hw.
Qed.

Lemma matchAt_run text i j :
  matchAt pattern text i = Some j <-> UppercaseRun text i j.
Proof.
  rewrite matchAt_pattern. cbv zeta. split.
  - destruct (wordBoundaryAt text i) eqn:Hb; [|done].
    destruct (2 <=? upperPrefix (drop i text)) eqn:Hn; [|done].
    destruct (isWordCharAt (text !! (i + upperPrefix (drop i text)))) eqn:Hw; [done|].
    intros [= <-]. apply Nat.leb_le in Hn.
    pose proof (upperPrefix_length (drop i text)) as Hlen.
    rewrite length_drop in Hlen.
    assert (Hin : forall k, i <= k < i + upperPrefix (drop i text) ->
              exists c, text !! k = Some c /\ isUpper c = true).
    { intros k Hk. destruct (upperPrefix_inside (drop i text) (k - i)) as (c & Hc & Hu); [lia|].
      rewrite lookup_drop in Hc. replace (i + (k - i)) with k in Hc by lia. eauto. }
    split; try done; try lia.
    + intros k c -> Hc. apply not_word_not_upper.
      unfold wordBoundaryAt in Hb. rewrite Hc in Hb.
      destruct (Hin (S k)) as (c' & Hc' & Hu); [lia|].
      rewrite Hc' in Hb. simpl in Hb. rewrite (isUpper_isWordChar c' Hu) in Hb.
      by destruct (isWordChar c).
    + intros c Hc. apply (upperPrefix_stop (drop i text)). by rewrite lookup_drop.
    + unfold wordBoundaryAt. rewrite Hw.
      destruct (i + upperPrefix (drop i text)) as [|k] eqn:Hk; [lia|].
      destruct (Hin k) as (c' & -> & Hu); [lia|].
      simpl. by rewrite (isUpper_isWordChar c' Hu).
  - intros [Hlong Hinside Hupper _ Hright Hbl Hbr].
    assert (Hn : upperPrefix (drop i text) = j - i).
    { apply upperPrefix_unique.
      - intros k Hk. rewrite lookup_drop. apply Hupper. lia.
      - intros c. rewrite lookup_drop. replace (i + (j - i)) with j by lia. apply Hright. }
    rewrite Hn, Hbl. replace (i + (j - i)) with j by lia.
    destruct (Nat.leb_spec 2 (j - i)); [|lia].
    unfold wordBoundaryAt in Hbr. destruct j as [|k]; [lia|].
    destruct (Hupper k) as (c' & Hc' & Hu); [lia|].
    rewrite Hc' in Hbr. simpl in Hbr. rewrite (isUpper_isWordChar c' Hu) in Hbr.
    by destruct (isWordCharAt (text !! S k)).
Qed.

Lemma matchAt_no_run text i :
  matchAt pattern text i = None <-> forall j, ~ UppercaseRun text i j.
Proof.
  split.
  - intros Hm j Hr. apply matchAt_run in Hr. congruence.
  - intros Hno. destruct (matchAt pattern text i) as [j|] eqn:Hm; [|done].
    by apply matchAt_run, Hno in Hm.
Qed.

Lemma execFrom_Some p text n : forall i a b,
  execFrom p text n i = Some (a, b) <->
  i <= a < i + n /\ matchAt p text a = Some b /\
  forall k, i <= k < a -> matchAt p text k = None.
Proof.
  induction n as [|n IH]; intros i a b; simpl.
  - split; [done|]. intros [? _]. lia.
  - destruct (matchAt p text i) as [e|] eqn:Hm.
    + split.
      * intros [= <- <-]. split; [lia|]. split; [done|]. intros k ?. lia.
      * intros (Ha & Hb & Hmin). destruct (decide (a = i)) as [->|Hne]; [congruence|].
        rewrite Hmin in Hm by lia. done.
    + rewrite IH. split.
      * intros (Ha & Hb & Hmin). split; [lia|]. split; [done|].
        intros k Hk. destruct (decide (k = i)) as [->|]; [done|]. apply Hmin. lia.
      * intros (Ha & Hb & Hmin). destruct (decide (a = i)) as [->|Hne]; [congruence|].
        split; [lia|]. split; [done|]. intros k Hk. apply Hmin. lia.
Qed.

Lemma execFrom_None p text n : forall i,
  execFrom p text n i = None <->
  forall k, i <= k < i + n -> matchAt p text k = None.
Proof.
  induction n as [|n IH]; intros i; simpl.
  - split; [|done]. intros _ k ?. lia.
  - destruct (matchAt p text i) as [e|] eqn:Hm.
    + split; [done|]. intros Hno. rewrite Hno in Hm by lia. done.
    + rewrite IH. split.
      * intros Hno k Hk. destruct (decide (k = i)) as [->|]; [done|]. apply Hno. lia.
      * intros Hno k Hk. apply Hno. lia.
Qed.

(** [exec] finds the leftmost run that starts at or after [lastIndex]. *)
Lemma exec_Some text lastIndex a b :
  exec pattern text lastIndex = Some (a, b) <->
  lastIndex <= a /\ UppercaseRun text a b /\
  forall k j, lastIndex <= k < a -> ~ UppercaseRun text k j.
Proof.
  unfold exec. rewrite execFrom_Some, matchAt_run. split.
  - intros (Ha & Hr & Hmin). split; [lia|]. split; [done|].
    intros k j Hk. by apply matchAt_no_run, Hmin.
  - intros (Ha & Hr & Hmin). split.
    + destruct Hr. lia.
    + split; [done|]. intros k Hk. apply matchAt_no_run. intros j. by apply Hmin.
Qed.

Lemma exec_None text lastIndex :
  exec pattern text lastIndex = None <->
  forall k j, lastIndex <= k -> ~ UppercaseRun text k j.
Proof.
  unfold exec. rewrite execFrom_None. split.
  - intros Hno k j Hk Hr. pose proof Hr as Hr'. apply matchAt_run in Hr'.
    rewrite Hno in Hr'; [done|]. destruct Hr. lia.
  - intros Hno k Hk. apply matchAt_no_run. intros j. apply Hno. lia.
Qed.

(** A run glued to a lowercase letter, a digit or an underscore is no match. *)
Example exec_skips_glued_runs :
  exec pattern (js "ABc AB_ 9AB x-AB") 0 = Some (14, 16).
Proof. reflexivity. Qed.

Example exec_after_last_match :
  exec pattern (js "The API returns OK") 18 = None.
Proof. reflexivity. Qed.

End Matcher.

(** ** The validator *)

Example allMatches_api :
  allMatches (js "The API returns OK") = [(4, 7); (16, 18)].
Proof. reflexivity. Qed.

Lemma matchesFrom_sound text fuel : forall lastIndex a b,
  (a, b) ∈ matchesFrom text fuel lastIndex ->
  lastIndex <= a /\ UppercaseRun text a b.
Proof.
  induction fuel as [|fuel IH]; intros li a b; simpl.
  - by intros ?%elem_of_nil.
  - destruct (exec pattern text li) as [[i j]|] eqn:He.
    + apply exec_Some in He as (Hi & Hr & _).
      intros [[= -> ->]|Hin]%elem_of_cons; [done|].
      apply IH in Hin as [Hj Hr']. split; [|done]. destruct Hr. lia.
    + by intros ?%elem_of_nil.
Qed.

(** A run cannot start inside another one. *)
Lemma run_disjoint text a b a' b' :
  UppercaseRun text a b -> UppercaseRun text a' b' -> a < a' -> b <= a'.
Proof.
  intros Hr Hr' Hlt. destruct (decide (b <= a')) as [|Hn]; [done|]. exfalso.
  destruct a' as [|k]; [lia|].
  destruct (run_upper _ _ _ Hr k) as (c & Hc & Hu); [lia|].
  by rewrite (run_maximal_left _ _ _ Hr' k c eq_refl Hc) in Hu.
Qed.

Lemma run_end_unique text a b b' :
  UppercaseRun text a b -> UppercaseRun text a b' -> b = b'.
Proof.
  intros Hr%matchAt_run Hr'%matchAt_run. congruence.
Qed.

Lemma matchesFrom_complete text fuel : forall lastIndex a b,
  length text < fuel + lastIndex ->
  lastIndex <= a -> UppercaseRun text a b ->
  (a, b) ∈ matchesFrom text fuel lastIndex.
Proof.
  induction fuel as [|fuel IH]; intros li a b Hfuel Hle Hr.
  - destruct Hr. lia.
  - simpl. destruct (exec pattern text li) as [[i j]|] eqn:He.
    + apply exec_Some in He as (Hi & Hri & Hmin).
      destruct (decide (a = i)) as [->|Hne].
      * rewrite (run_end_unique _ _ _ _ Hr Hri). apply elem_of_cons. by left.
      * assert (i < a).
        { destruct (decide (i < a)); [done|]. destruct (Hmin a b); [lia|done]. }
        apply elem_of_cons. right. apply IH; [|by eapply run_disjoint|done].
        destruct Hri. lia.
    + exfalso. eapply exec_None in He; eauto.
Qed.

Lemma matchesFrom_sorted text fuel : forall lastIndex,
  LeftToRight (matchesFrom text fuel lastIndex).
Proof.
  induction fuel as [|fuel IH]; intros li k x y; simpl; [done|].
  destruct (exec pattern text li) as [[i j]|] eqn:He; [|done].
  destruct k as [|k]; simpl.
  - intros [= <-] Hy. destruct y as [a b].
    apply list_elem_of_lookup_2, matchesFrom_sound in Hy. simpl. lia.
  - apply IH.
Qed.

Lemma validateLoop_matches related doc st fuel : forall lastIndex problems acc,
  lastIndex <= length (getText doc) ->
  length (getText doc) < fuel + lastIndex ->
  validateLoop related doc (Some st) fuel lastIndex problems acc =
  Some (Normal (acc ++ map (diagnosticOf related doc)
     (take (Z.to_nat (maxNumberOfProblems st - Z.of_nat problems))
           (matchesFrom (getText doc) fuel lastIndex)))).
Proof.
  induction fuel as [|fuel IH]; intros li problems acc Hli Hfuel; [lia|].
  simpl. destruct (exec pattern (getText doc) li) as [[i j]|] eqn:He.
  - apply exec_Some in He as (Hi & [] & _).
    destruct (Z.ltb_spec (Z.of_nat problems) (maxNumberOfProblems st)).
    + rewrite IH by lia.
      replace (Z.to_nat (maxNumberOfProblems st - Z.of_nat problems))
        with (S (Z.to_nat (maxNumberOfProblems st - Z.of_nat (S problems)))) by lia.
      simpl. by rewrite <- app_assoc.
    + replace (Z.to_nat (maxNumberOfProblems st - Z.of_nat problems)) with 0 by lia.
      simpl. by rewrite app_nil_r.
  - rewrite take_nil. simpl. by rewrite app_nil_r.
Qed.

Lemma matchesFrom_NoDup text fuel : forall lastIndex,
  NoDup (matchesFrom text fuel lastIndex).
Proof.
  induction fuel as [|fuel IH]; intros li; simpl; [constructor|].
  destruct (exec pattern text li) as [[i j]|] eqn:He; [|constructor].
  constructor; [|apply IH].
  intros [Hj _]%matchesFrom_sound.
  apply exec_Some in He as (_ & [] & _). lia.
Qed.

Lemma allMatches_runs text i j :
  (i, j) ∈ allMatches text <-> UppercaseRun text i j.
Proof.
  unfold allMatches. split.
  - by intros [_ Hr]%matchesFrom_sound.
  - intros Hr. apply matchesFrom_complete; [lia|lia|done].
Qed.

Lemma diagnosticOf_reports related doc i j :
  UppercaseRun (getText doc) i j ->
  Reports doc (i, j) (diagnosticOf related doc (i, j)).
Proof.
  intros []. unfold Reports, diagnosticOf, makeDiagnostic. simpl.
  split; [done|]. split; [|done].
  unfold substring. rewrite length_take, length_drop.
  do 2 f_equal. lia.
Qed.

Lemma validateLoop_null related doc fuel lastIndex problems acc :
  validateLoop related doc None (S fuel) lastIndex problems acc =
  match exec pattern (getText doc) lastIndex with
  | None => Some (Normal acc)
  | Some _ => Some (Throw TypeError)
  end.
Proof. simpl. by destruct (exec pattern (getText doc) lastIndex) as [[]|]. Qed.

(** The validator's result once the settings are known. *)
Lemma validateTaclDocument_settings getConfiguration doc s s' st :
  getDocumentSettings getConfiguration (uri doc) s = (s', Some st) ->
  validateTaclDocument getConfiguration doc s =
  (s', Some (Normal (mkPublish (uri doc)
     (map (diagnosticOf (hasDiagnosticRelatedInformationCapability s') doc)
          (take (Z.to_nat (maxNumberOfProblems st)) (allMatches (getText doc))))))).
Proof.
  intros Hs. unfold validateTaclDocument. rewrite Hs.
  rewrite validateLoop_matches by lia. simpl.
  by rewrite Z.sub_0_r.
Qed.

(** The validator always finishes: the loop never runs out of iterations. *)
Lemma validateTaclDocument_total getConfiguration doc s :
  exists c, (validateTaclDocument getConfiguration doc s).2 = Some c.
Proof.
  destruct (getDocumentSettings getConfiguration (uri doc) s) as [s' [st|]] eqn:Hs.
  - rewrite (validateTaclDocument_settings _ _ _ _ _ Hs). eauto.
  - unfold validateTaclDocument. rewrite Hs, validateLoop_null.
    destruct (exec pattern (getText doc) 0); simpl; eauto.
Qed.

Lemma getDocumentSettings_again getConfiguration getConfiguration' resource s s' r :
  getDocumentSettings getConfiguration resource s = (s', r) ->
  getDocumentSettings getConfiguration' resource s' = (s', r).
Proof.
  unfold getDocumentSettings.
  destruct (hasConfigurationCapability s) eqn:Hcap; simpl.
  - destruct (documentSettings s !! resource) as [cached|] eqn:Hget.
    + intros [= <- <-]. by rewrite Hcap, Hget.
    + intros [= <- <-]. simpl. rewrite Hcap. simpl. by rewrite lookup_insert_eq.
  - intros [= <- <-]. by rewrite Hcap.
Qed.

(** C1: for every document and resolved settings the validator publishes one
    diagnostic per maximal run of two or more uppercase letters bounded by
    word boundaries, left to right, for the first [maxNumberOfProblems] runs
    only; each has severity Warning, the range of its run, the message
    "<TOKEN> is all uppercase. Can you please fix that" and source "ex". *)
Theorem validateTaclDocument_uppercase_runs getConfiguration doc s s' st :
  getDocumentSettings getConfiguration (uri doc) s = (s', Some st) ->
  exists runs reported,
    validateTaclDocument getConfiguration doc s =
      (s', Some (Normal (mkPublish (uri doc) reported))) /\
    (forall i j, (i, j) ∈ runs <-> UppercaseRun (getText doc) i j) /\
    NoDup runs /\ LeftToRight runs /\
    Forall2 (Reports doc) (take (Z.to_nat (maxNumberOfProblems st)) runs) reported.
Proof.
  intros Hs. eexists (allMatches (getText doc)), _.
  split; [by apply validateTaclDocument_settings|].
  split; [apply allMatches_runs|].
  split; [apply matchesFrom_NoDup|].
  split; [apply matchesFrom_sorted|].
  apply Forall2_fmap_r, Forall_Forall2_diag, Forall_forall.
  intros [i j] Hin. apply diagnosticOf_reports, allMatches_runs.
  apply elem_of_take in Hin as (k & Hk & _). by eapply list_elem_of_lookup_2.
Qed.

Lemma validateTaclDocument_uppercase_runs_witness :
  getDocumentSettings noConfiguration (uri sampleDocument)
    (initialState false true) = (initialState false true, Some defaultSettings)
  /\ exists runs reported,
    validateTaclDocument noConfiguration sampleDocument (initialState false true) =
      (initialState false true,
       Some (Normal (mkPublish (uri sampleDocument) reported))) /\
    (forall i j, (i, j) ∈ runs <-> UppercaseRun (getText sampleDocument) i j) /\
    NoDup runs /\ LeftToRight runs /\
    Forall2 (Reports sampleDocument)
      (take (Z.to_nat (maxNumberOfProblems defaultSettings)) runs) reported.
Proof.
  split; [reflexivity|].
  apply (validateTaclDocument_uppercase_runs noConfiguration sampleDocument
           (initialState false true) (initialState false true) defaultSettings).
  reflexivity.
Defined.

(** C3: on "The API returns OK" with the default cap of 1000 the validator
    publishes exactly two diagnostics, for "API" then "OK", both Warning and
    from source "ex". *)
Theorem validateTaclDocument_api_ok getConfiguration u related cache :
  exists api ok,
    (validateTaclDocument getConfiguration (apiDocument u)
       (mkServer false related defaultSettings cache)).2 =
      Some (Normal (mkPublish u [api; ok])) /\
    (severity api = Warning /\ source api = js "ex" /\
     message api = js "API is all uppercase. Can you please fix that" /\
     range api = mkRange (mkPosition 0 4) (mkPosition 0 7)) /\
    (severity ok = Warning /\ source ok = js "ex" /\
     message ok = js "OK is all uppercase. Can you please fix that" /\
     range ok = mkRange (mkPosition 0 16) (mkPosition 0 18)).
Proof.
  eexists (diagnosticOf related (apiDocument u) (4, 7)),
          (diagnosticOf related (apiDocument u) (16, 18)).
  split; [|by vm_compute].
  erewrite validateTaclDocument_settings by reflexivity.
  reflexivity.
Qed.

(** C4: validating the same document again, with nothing changed in
    between, publishes the same diagnostics (the same completion of the call)
    and leaves the server's state as the first pass left it; the first pass
    finishes. *)
Theorem validateTaclDocument_twice getConfiguration getConfiguration' doc s :
  let first := validateTaclDocument getConfiguration doc s in
  let second := validateTaclDocument getConfiguration' doc first.1 in
  second.2 = first.2 /\ second.1 = first.1 /\ exists c, first.2 = Some c.
Proof.
  cbv zeta. split; [|split; [|apply validateTaclDocument_total]].
  - unfold validateTaclDocument.
    destruct (getDocumentSettings getConfiguration (uri doc) s) as [s' r] eqn:Hs.
    simpl. by rewrite (getDocumentSettings_again _ getConfiguration' _ _ _ _ Hs).
  - unfold validateTaclDocument.
    destruct (getDocumentSettings getConfiguration (uri doc) s) as [s' r] eqn:Hs.
    simpl. by rewrite (getDocumentSettings_again _ getConfiguration' _ _ _ _ Hs).
Qed.

(** C5: with [maxNumberOfProblems = 0] the validator publishes an empty
    list of diagnostics, whatever the text. *)
Theorem validateTaclDocument_cap_zero getConfiguration doc s s' st :
  getDocumentSettings getConfiguration (uri doc) s = (s', Some st) ->
  maxNumberOfProblems st = 0%Z ->
  validateTaclDocument getConfiguration doc s =
  (s', Some (Normal (mkPublish (uri doc) []))).
Proof.
  intros Hs Hcap. rewrite (validateTaclDocument_settings _ _ _ _ _ Hs).
  by rewrite Hcap.
Qed.

Lemma validateTaclDocument_cap_zero_witness :
  validateTaclDocument zeroSettings sampleDocument (initialState true false) =
  (setDocumentSettings {[ sampleUri := Some (mkSettings 0) ]}
     (initialState true false),
   Some (Normal (mkPublish (uri sampleDocument) []))).
Proof.
  apply (validateTaclDocument_cap_zero zeroSettings sampleDocument
           (initialState true false) _ (mkSettings 0)); reflexivity.
Defined.

(** C7: with per-document configuration, a client that answers [null] for
    the document's settings makes the validation pass throw on the first
    match instead of using the default cap of 1000. *)
Theorem validateTaclDocument_null_settings :
  (validateTaclDocument noConfiguration sampleDocument (initialState true false)).2
  = Some (Throw TypeError).
Proof. reflexivity. Qed.

Lemma null_settings_throw_on_match getConfiguration doc s i j :
  hasConfigurationCapability s = true ->
  documentSettings s !! uri doc = None ->
  getConfiguration (uri doc) = None ->
  UppercaseRun (getText doc) i j ->
  (validateTaclDocument getConfiguration doc s).2 = Some (Throw TypeError).
Proof.
  intros Hcap Hmiss Hnull Hrun.
  unfold validateTaclDocument, getDocumentSettings.
  rewrite Hcap, Hmiss, Hnull. cbn [negb snd]. rewrite validateLoop_null.
  destruct (exec pattern (getText doc) 0) eqn:He; [done|].
  exfalso. eapply exec_None in He; eauto. lia.
Qed.

(** The sibling path: without per-document configuration, a configuration
    change that carries no [languageServerExample] section installs the
    default settings, and the next pass reports the first 1000 runs. *)
Lemma validateTaclDocument_after_missing_section getConfiguration doc s :
  hasConfigurationCapability s = false ->
  let s' := onDidChangeConfiguration None s in
  validateTaclDocument getConfiguration doc s' =
  (s', Some (Normal (mkPublish (uri doc)
     (map (diagnosticOf (hasDiagnosticRelatedInformationCapability s') doc)
          (take 1000 (allMatches (getText doc))))))).
Proof.
  intros Hcap s'.
  apply (validateTaclDocument_settings _ _ _ _ defaultSettings).
  unfold getDocumentSettings, s', onDidChangeConfiguration.
  by rewrite Hcap; simpl; rewrite Hcap.
Qed.

(** C2: resolving an item with [data = 1] fills [detail] and
    [documentation] from the first row of the keyword table; resolving an
    item whose [data] exceeds the table's size throws, and no item is ever
    returned with [detail] or [documentation] undefined. *)
Theorem onCompletionResolve_first_and_beyond keywordDes it :
  (data it = 1%Z -> forall first, keywordDes !! 0 = Some first ->
     onCompletionResolve keywordDes it =
     Normal (mkItem (label it) (kind it) (data it)
                    (Some (keyword_detail first))
                    (Some (keyword_documentation first)))) /\
  ((Z.of_nat (length keywordDes) < data it)%Z ->
     onCompletionResolve keywordDes it = Throw TypeError) /\
  (forall it', onCompletionResolve keywordDes it = Normal it' ->
     detail it' <> None /\ documentation it' <> None).
Proof.
  unfold onCompletionResolve. split; [|split].
  - intros -> first Hfirst. unfold arrayGet.
    change (Z.to_nat (1 - 1)) with 0.
    change (1 - 1 <? 0)%Z with false. by rewrite Hfirst.
  - intros Hbeyond. unfold arrayGet.
    destruct (Z.ltb_spec (data it - 1) 0); [done|].
    destruct (keywordDes !! Z.to_nat (data it - 1)) eqn:Hget; [|done].
    apply lookup_lt_Some in Hget. lia.
  - intros it'. destruct (arrayGet keywordDes (data it - 1)); [|done].
    by intros [= <-].
Qed.

Lemma onCompletionResolve_first_and_beyond_witness :
  onCompletionResolve sampleKeywords (item "Given" KindProperty 1) =
    Normal (mkItem (js "Given") (Some KindProperty) 1
                   (Some (js "Step keyword"))
                   (Some (js "Opens a precondition step"))) /\
  onCompletionResolve sampleKeywords (item "actions" KindProperty 2) =
    Throw TypeError.
Proof.
  split.
  - apply (proj1 (onCompletionResolve_first_and_beyond sampleKeywords
                    (item "Given" KindProperty 1)) eq_refl
                 (mkKeyword (js "Given") (js "Step keyword")
                            (js "Opens a precondition step"))).
    reflexivity.
  - apply (proj1 (proj2 (onCompletionResolve_first_and_beyond sampleKeywords
                           (item "actions" KindProperty 2)))).
    reflexivity.
Defined.

(** C8: the completion list does not depend on the request; its [data] ids
    are 1, 2, ..., 29 in order, and the label "empty" is kept at both id 21
    and id 26. *)
Theorem onCompletion_fixed p p' :
  onCompletion p = onCompletion p' /\
  map data (onCompletion p) = map Z.of_nat (seq 1 29) /\
  onCompletion p !! 20 = Some (item "empty" KindVariable 21) /\
  onCompletion p !! 25 = Some (item "empty" KindVariable 26).
Proof. repeat split. Qed.

(** C9: a resolved item has the [label], [kind] and [data] of the item
    that was passed in. *)
Theorem onCompletionResolve_frame keywordDes it it' :
  onCompletionResolve keywordDes it = Normal it' ->
  label it' = label it /\ kind it' = kind it /\ data it' = data it.
Proof.
  unfold onCompletionResolve.
  destruct (arrayGet keywordDes (data it - 1)); [|done]. by intros [= <-].
Qed.

Lemma onCompletionResolve_frame_witness :
  let resolved := mkItem (js "Given") (Some KindProperty) 1
                    (Some (js "Step keyword"))
                    (Some (js "Opens a precondition step")) in
  onCompletionResolve sampleKeywords (item "Given" KindProperty 1)
    = Normal resolved /\
  label resolved = js "Given" /\ kind resolved = Some KindProperty /\
  data resolved = 1%Z.
Proof.
  split; [reflexivity|].
  apply (onCompletionResolve_frame sampleKeywords (item "Given" KindProperty 1)).
  reflexivity.
Defined.

Lemma foldl_visit word l : forall init,
  foldl (visit word) init l =
  from_option hover_documentation init
    (last (filter (fun x => hover_label x = word) l)).
Proof.
  induction l as [|x l IH]; intros init; [done|].
  cbn [foldl]. rewrite IH, filter_cons. unfold visit.
  destruct (decide (hover_label x = word)) as [Heq|Hne].
  - rewrite bool_decide_eq_true_2 by done. rewrite last_cons.
    by destruct (last (filter _ l)).
  - by rewrite bool_decide_eq_false_2 by done.
Qed.

Lemma filter_no_match word (l : list HoverEntry) :
  Forall (fun x => hover_label x <> word) l ->
  filter (fun x => hover_label x = word) l = [].
Proof.
  induction 1 as [|x l Hx _ IH]; [done|].
  by rewrite filter_cons_False.
Qed.

(** C10: when several rows of the hover table carry the word under the
    cursor as label, the hover shows the documentation of the last of them
    in table order. *)
Theorem provideHover_last_match dirname hoverDes document position token e :
  last (filter (fun x => hover_label x = wordAt document position) hoverDes)
    = Some e ->
  contents (provideHover dirname hoverDes document position token).2
    = [hover_documentation e].
Proof.
  intros Hlast. unfold provideHover. cbn [snd contents].
  by rewrite foldl_visit, Hlast.
Qed.

Lemma provideHover_last_match_witness :
  contents (provideHover sampleDirname sampleHovers sampleEditorDocument
              (mkPosition 0 9) (mkToken false)).2
  = [js "The element can be seen"].
Proof.
  apply (provideHover_last_match sampleDirname sampleHovers sampleEditorDocument
           (mkPosition 0 9) (mkToken false)
           (mkHoverEntry (js "visible") (js "The element can be seen"))).
  reflexivity.
Defined.

(** C6, as the code has it: when some row's label equals the word under
    the cursor, the hover shows the documentation of a row with that label,
    and of that very row when no later row has the same label; when no row's
    label equals the word the hover's content is the empty string, and a
    hover is returned all the same. *)
Theorem provideHover_hit_or_miss dirname hoverDes document position token :
  let word := wordAt document position in
  let shown := contents (provideHover dirname hoverDes document position token).2 in
  (forall e, e ∈ hoverDes -> hover_label e = word ->
     exists e', e' ∈ hoverDes /\ hover_label e' = word /\
                shown = [hover_documentation e']) /\
  (forall pre e post, hoverDes = pre ++ e :: post -> hover_label e = word ->
     Forall (fun x => hover_label x <> word) post ->
     shown = [hover_documentation e]) /\
  ((forall e, e ∈ hoverDes -> hover_label e <> word) -> shown = [[]]).
Proof.
  cbv zeta. unfold provideHover. cbn [snd contents]. rewrite foldl_visit.
  set (word := wordAt document position).
  set (hits := filter (fun x => hover_label x = word) hoverDes).
  repeat split.
  - intros e Hin Hlabel.
    assert (Hhit : e ∈ hits) by (by apply list_elem_of_filter).
    destruct (last hits) as [e'|] eqn:Hlast.
    + exists e'. apply last_Some_elem_of in Hlast.
      apply list_elem_of_filter in Hlast as [? ?]. done.
    + apply last_None in Hlast. rewrite Hlast in Hhit. by apply elem_of_nil in Hhit.
  - intros pre e post -> Hlabel Hpost. unfold hits.
    rewrite filter_app, filter_cons_True by done.
    replace (filter _ post) with (@nil HoverEntry).
    + by rewrite last_snoc.
    + symmetry. by apply filter_no_match.
  - intros Hmiss. replace hits with (@nil HoverEntry); [done|].
    symmetry. apply filter_no_match, Forall_forall. done.
Qed.

Lemma provideHover_hit_or_miss_witness :
  contents (provideHover sampleDirname sampleHovers sampleEditorDocument
              (mkPosition 0 9) (mkToken false)).2
    = [js "The element can be seen"] /\
  contents (provideHover sampleDirname sampleHovers missEditorDocument
              (mkPosition 0 3) (mkToken false)).2 = [[]].
Proof.
  split.
  - apply (proj1 (proj2 (provideHover_hit_or_miss sampleDirname sampleHovers
                           sampleEditorDocument (mkPosition 0 9) (mkToken false)))
             [mkHoverEntry (js "visible") (js "The element is displayed");
              mkHoverEntry (js "hidden") (js "The element is not displayed")]
             (mkHoverEntry (js "visible") (js "The element can be seen")) []);
      [reflexivity | reflexivity | constructor].
  - apply (proj2 (proj2 (provideHover_hit_or_miss sampleDirname sampleHovers
                           missEditorDocument (mkPosition 0 3) (mkToken false)))).
    intros e Hin.
    repeat (apply elem_of_cons in Hin as [->|Hin]; [discriminate|]).
    by apply elem_of_nil in Hin.
Defined.

Lemma provideHover_earlier_duplicate :
  let e := mkHoverEntry (js "visible") (js "The element is displayed") in
  e ∈ sampleHovers /\
  hover_label e = wordAt sampleEditorDocument (mkPosition 0 9) /\
  contents (provideHover sampleDirname sampleHovers sampleEditorDocument
              (mkPosition 0 9) (mkToken false)).2 <> [hover_documentation e].
Proof.
  cbv zeta. split; [apply elem_of_cons; by left|]. split; [done|].
  vm_compute. discriminate.
Qed.

(** ** Further properties of the validator *)


Lemma validateTaclDocument_normal getConfiguration doc s s' p :
  validateTaclDocument getConfiguration doc s = (s', Some (Normal p)) ->
  exists n, p = mkPublish (uri doc)
    (map (diagnosticOf (hasDiagnosticRelatedInformationCapability s') doc)
         (take n (allMatches (getText doc)))) /\
    forall st, (getDocumentSettings getConfiguration (uri doc) s).2 = Some st ->
               n = Z.to_nat (maxNumberOfProblems st).
Proof.
  destruct (getDocumentSettings getConfiguration (uri doc) s) as [s1 [st|]] eqn:Hs.
  - rewrite (validateTaclDocument_settings _ _ _ _ _ Hs). intros [= <- <-].
    exists (Z.to_nat (maxNumberOfProblems st)). split; [done|].
    by intros st' [= <-].
  - unfold validateTaclDocument. rewrite Hs, validateLoop_null.
    destruct (exec pattern (getText doc) 0); [done|]. intros [= <- <-].
    exists 0. split; [by rewrite take_0|done].
Qed.

(** X1: a text with no maximal run of two or more uppercase letters between
    word boundaries (the empty text, for one) gets an empty list published,
    whatever the settings resolve to, [null] included. *)
Theorem validateTaclDocument_no_run getConfiguration doc s :
  (forall i j, ~ UppercaseRun (getText doc) i j) ->
  (validateTaclDocument getConfiguration doc s).2
  = Some (Normal (mkPublish (uri doc) [])).
Proof.
  intros Hno. unfold validateTaclDocument.
  destruct (getDocumentSettings getConfiguration (uri doc) s) as [s' settings].
  cbn [snd validateLoop].
  replace (exec pattern (getText doc) 0) with (@None (nat * nat)); [done|].
  symmetry. apply exec_None. intros k j _. apply Hno.
Qed.

Lemma validateTaclDocument_no_run_witness :
  (forall i j, ~ UppercaseRun (getText emptyDocument) i j) /\
  (validateTaclDocument noConfiguration emptyDocument (initialState true true)).2
  = Some (Normal (mkPublish (uri emptyDocument) [])).
Proof.
  assert (H : forall i j, ~ UppercaseRun (getText emptyDocument) i j).
  { intros i j Hr. destruct Hr as [Hlong Hin _ _ _ _ _]. simpl in Hin. lia. }
  split; [exact H|].
  exact (validateTaclDocument_no_run noConfiguration emptyDocument
           (initialState true true) H).
Defined.

(** X2: a validation pass throws exactly when the settings resolve to [null]
    and the text has at least one run to report. *)
Theorem validateTaclDocument_throws_iff getConfiguration doc s :
  (validateTaclDocument getConfiguration doc s).2 = Some (Throw TypeError) <->
  (getDocumentSettings getConfiguration (uri doc) s).2 = None /\
  exists i j, UppercaseRun (getText doc) i j.
Proof.
  destruct (getDocumentSettings getConfiguration (uri doc) s) as [s' [st|]] eqn:Hs.
  - rewrite (validateTaclDocument_settings _ _ _ _ _ Hs). simpl.
    split; [done|]. by intros [? _].
  - unfold validateTaclDocument. rewrite Hs, validateLoop_null. simpl.
    destruct (exec pattern (getText doc) 0) as [[a b]|] eqn:He.
    + split; [|done]. intros _. split; [done|].
      apply exec_Some in He as (_ & Hr & _). eauto.
    + split; [done|]. intros [_ (i & j & Hr)].
      exfalso. eapply exec_None in He; eauto. lia.
Qed.

Lemma validateTaclDocument_throws_iff_witness :
  (validateTaclDocument noConfiguration sampleDocument (initialState true true)).2
  = Some (Throw TypeError).
Proof.
  apply (proj2 (validateTaclDocument_throws_iff noConfiguration sampleDocument
                  (initialState true true))).
  split; [reflexivity|].
  exists 4, 7. apply matchAt_run. reflexivity.
Defined.



(** X4: for one document, the diagnostics under a smaller cap are a prefix of
    the diagnostics under a larger cap. *)
Theorem validateTaclDocument_cap_prefix
    getConfiguration getConfiguration' doc s s' st p t t' st' p' :
  validateTaclDocument getConfiguration doc s = (s', Some (Normal p)) ->
  validateTaclDocument getConfiguration' doc t = (t', Some (Normal p')) ->
  (getDocumentSettings getConfiguration (uri doc) s).2 = Some st ->
  (getDocumentSettings getConfiguration' (uri doc) t).2 = Some st' ->
  hasDiagnosticRelatedInformationCapability s
    = hasDiagnosticRelatedInformationCapability t ->
  (maxNumberOfProblems st <= maxNumberOfProblems st')%Z ->
  diagnostics p `prefix_of` diagnostics p'.
Proof.
  intros Hp Hp' Hst Hst' Hrel Hle.
  destruct (getDocumentSettings getConfiguration (uri doc) s) as [s1 o] eqn:Hs.
  destruct (getDocumentSettings getConfiguration' (uri doc) t) as [t1 o'] eqn:Ht.
  simpl in Hst, Hst'. subst o o'.
  rewrite (validateTaclDocument_settings _ _ _ _ _ Hs) in Hp.
  rewrite (validateTaclDocument_settings _ _ _ _ _ Ht) in Hp'.
  injection Hp as <- <-. injection Hp' as <- <-. simpl.
  assert (hasDiagnosticRelatedInformationCapability s1
          = hasDiagnosticRelatedInformationCapability t1) as ->.
  { unfold getDocumentSettings in Hs, Ht.
    destruct (hasConfigurationCapability s), (documentSettings s !! uri doc);
    destruct (hasConfigurationCapability t), (documentSettings t !! uri doc);
    simpl in *; injection Hs as <- _; injection Ht as <- _; done. }
  set (l := allMatches (getText doc)).
  set (n := Z.to_nat (maxNumberOfProblems st)).
  set (m := Z.to_nat (maxNumberOfProblems st')).
  exists (map (diagnosticOf (hasDiagnosticRelatedInformationCapability t1) doc)
              (drop n (take m l))).
  rewrite <- map_app. f_equal.
  rewrite <- (take_drop n (take m l)) at 1. f_equal.
  rewrite take_take. f_equal. lia.
Qed.

Lemma validateTaclDocument_cap_prefix_witness :
  exists p p',
    validateTaclDocument (capSettings 1) sampleDocument (initialState true false)
      = (setDocumentSettings {[ sampleUri := Some (mkSettings 1) ]}
           (initialState true false), Some (Normal p)) /\
    validateTaclDocument (capSettings 2) sampleDocument (initialState true false)
      = (setDocumentSettings {[ sampleUri := Some (mkSettings 2) ]}
           (initialState true false), Some (Normal p')) /\
    length (diagnostics p) = 1 /\ length (diagnostics p') = 2 /\
    diagnostics p `prefix_of` diagnostics p'.
Proof.
  eexists _, _. split; [reflexivity|]. split; [reflexivity|].
  split; [reflexivity|]. split; [reflexivity|].
  apply (validateTaclDocument_cap_prefix (capSettings 1) (capSettings 2)
           sampleDocument (initialState true false) _ (mkSettings 1) _
           (initialState true false) _ (mkSettings 2) _ eq_refl eq_refl);
    [reflexivity | reflexivity | reflexivity | simpl; lia].
Defined.

(** X5: when the client supports related information every published
    diagnostic carries exactly the two notes "Spelling matters" and
    "Particularly for names", both located at the diagnostic's own range in
    the validated document; otherwise no diagnostic carries any. *)
Theorem validateTaclDocument_related getConfiguration doc s s' p d :
  validateTaclDocument getConfiguration doc s = (s', Some (Normal p)) ->
  d ∈ diagnostics p ->
  relatedInformation d =
  if hasDiagnosticRelatedInformationCapability s then
    Some [mkRelated (mkLocation (uri doc) (range d)) (js "Spelling matters");
          mkRelated (mkLocation (uri doc) (range d)) (js "Particularly for names")]
  else None.
Proof.
  intros Hp Hd.
  assert (hasDiagnosticRelatedInformationCapability s'
          = hasDiagnosticRelatedInformationCapability s) as Hrel.
  { unfold validateTaclDocument, getDocumentSettings in Hp.
    destruct (hasConfigurationCapability s), (documentSettings s !! uri doc);
      simpl in Hp; by injection Hp as <- _. }
  apply validateTaclDocument_normal in Hp as (n & -> & _). simpl in Hd.
  apply list_elem_of_fmap in Hd as (run & -> & _). rewrite Hrel.
  unfold diagnosticOf, makeDiagnostic. simpl.
  by destruct (hasDiagnosticRelatedInformationCapability s).
Qed.

Lemma validateTaclDocument_related_witness :
  exists api ok,
    validateTaclDocument noConfiguration sampleDocument (initialState false true)
    = (initialState false true,
       Some (Normal (mkPublish sampleUri [api; ok]))) /\
    relatedInformation ok =
    Some [mkRelated (mkLocation sampleUri (range ok)) (js "Spelling matters");
          mkRelated (mkLocation sampleUri (range ok))
                    (js "Particularly for names")].
Proof.
  eexists _, _. split; [reflexivity|].
  apply (validateTaclDocument_related noConfiguration sampleDocument
           (initialState false true) _ _ _ eq_refl).
  apply elem_of_cons. right. apply elem_of_cons. by left.
Defined.

(** ** The settings cache *)

Lemma getDocumentSettings_state getConfiguration resource s :
  (getDocumentSettings getConfiguration resource s).1 =
  if hasConfigurationCapability s then
    match documentSettings s !! resource with
    | Some _ => s
    | None => setDocumentSettings
                (<[resource := getConfiguration resource]> (documentSettings s)) s
    end
  else s.
Proof.
  unfold getDocumentSettings.
  destruct (hasConfigurationCapability s); simpl; [|done].
  by destruct (documentSettings s !! resource).
Qed.

Lemma validateTaclDocument_state getConfiguration doc s :
  (validateTaclDocument getConfiguration doc s).1
  = (getDocumentSettings getConfiguration (uri doc) s).1.
Proof.
  unfold validateTaclDocument.
  by destruct (getDocumentSettings getConfiguration (uri doc) s).
Qed.

(** X6: a validation pass changes nothing but the settings cache, and there
    only the entry of the validated document: the entry is filled with the
    client's answer when it was missing and per-document configuration is on,
    and the cache is untouched otherwise. *)
Theorem validateTaclDocument_frame getConfiguration doc s :
  let s' := (validateTaclDocument getConfiguration doc s).1 in
  hasConfigurationCapability s' = hasConfigurationCapability s /\
  hasDiagnosticRelatedInformationCapability s'
    = hasDiagnosticRelatedInformationCapability s /\
  globalSettings s' = globalSettings s /\
  (forall u, u <> uri doc -> documentSettings s' !! u = documentSettings s !! u) /\
  (forall r, documentSettings s !! uri doc = Some r ->
             documentSettings s' = documentSettings s) /\
  (if hasConfigurationCapability s
   then documentSettings s' !! uri doc
        = Some (getDocumentSettings getConfiguration (uri doc) s).2
   else documentSettings s' = documentSettings s).
Proof.
  cbv zeta. rewrite validateTaclDocument_state, getDocumentSettings_state.
  unfold getDocumentSettings.
  destruct (hasConfigurationCapability s) eqn:Hcap; simpl.
  - destruct (documentSettings s !! uri doc) as [r|] eqn:Hget; simpl.
    + rewrite Hget. repeat split; try done.
    + repeat split; try done.
      * intros u Hu. by rewrite lookup_insert_ne.
      * by rewrite lookup_insert_eq.
  - repeat split; done.
Qed.

(** X7: closing a document undoes what validating it cached: the state is as
    if the document had been closed without the pass, its entry is gone, the
    other entries stay, and with per-document configuration the next lookup
    for it takes the client's answer of that moment. *)
Theorem onDidClose_forgets getConfiguration getConfiguration' doc s :
  onDidClose doc (validateTaclDocument getConfiguration doc s).1
    = onDidClose doc s /\
  documentSettings (onDidClose doc s) !! uri doc = None /\
  (forall u, u <> uri doc ->
     documentSettings (onDidClose doc s) !! u = documentSettings s !! u) /\
  (hasConfigurationCapability s = true ->
   (getDocumentSettings getConfiguration' (uri doc) (onDidClose doc s)).2
   = getConfiguration' (uri doc)).
Proof.
  split; [|split; [|split]].
  - rewrite validateTaclDocument_state, getDocumentSettings_state.
    destruct (hasConfigurationCapability s); [|done].
    destruct (documentSettings s !! uri doc); [done|].
    unfold onDidClose, setDocumentSettings. simpl. by rewrite delete_insert_eq.
  - unfold onDidClose. simpl. apply lookup_delete_eq.
  - intros u Hu. unfold onDidClose. simpl. by rewrite lookup_delete_ne.
  - intros Hcap. unfold getDocumentSettings, onDidClose. simpl.
    by rewrite Hcap, lookup_delete_eq.
Qed.

Lemma onDidClose_forgets_witness :
  (getDocumentSettings (capSettings 7) (uri sampleDocument)
     (onDidClose sampleDocument
        (validateTaclDocument (capSettings 3) sampleDocument
           (initialState true false)).1)).2
  = Some (mkSettings 7).
Proof.
  rewrite (proj1 (onDidClose_forgets (capSettings 3) (capSettings 7)
                    sampleDocument (initialState true false))).
  apply (proj2 (proj2 (proj2 (onDidClose_forgets (capSettings 3) (capSettings 7)
                    sampleDocument (initialState true false))))).
  reflexivity.
Defined.


(** ** Revalidation and the open documents *)







Lemma validateTaclDocument_dom
    (getConfiguration : JsString -> option ExampleSettings) doc s :
  dom (documentSettings (validateTaclDocument getConfiguration doc s).1)
  ⊆ {[uri doc]} ∪ dom (documentSettings s).
Proof.
  rewrite validateTaclDocument_state, getDocumentSettings_state.
  destruct (hasConfigurationCapability s); [|set_solver].
  destruct (documentSettings s !! uri doc); [set_solver|].
  simpl. rewrite dom_insert_L. set_solver.
Qed.

(** The state after [revalidate] is the state threaded through the passes. *)
Lemma revalidate_state (getConfiguration : JsString -> option ExampleSettings)
    (docs : list TextDocument) (s : ServerState) :
  (revalidate getConfiguration docs s).1
  = foldl (fun st d => (validateTaclDocument getConfiguration d st).1) s docs.
Proof.
  unfold revalidate.
  generalize (@nil (option (Completion PublishDiagnosticsParams))) at 2.
  revert s. induction docs as [|d docs IH]; intros s out; simpl; [done|].
  destruct (validateTaclDocument getConfiguration d s) as [s1 r]. apply IH.
Qed.

Lemma revalidate_dom (getConfiguration : JsString -> option ExampleSettings)
    (docs : list TextDocument) (known : gset JsString) : forall s : ServerState,
  (forall d, d ∈ docs -> uri d ∈ known) ->
  dom (documentSettings (revalidate getConfiguration docs s).1)
  ⊆ known ∪ dom (documentSettings s).
Proof.
  intros s. rewrite revalidate_state. revert s.
  induction docs as [|d docs IH]; intros s Hall; simpl; [set_solver|].
  pose proof (validateTaclDocument_dom getConfiguration d s) as Hd.
  assert (Hhead : uri d ∈ known) by (apply Hall; apply elem_of_cons; by left).
  assert (Htail : forall d', d' ∈ docs -> uri d' ∈ known)
    by (intros d' ?; apply Hall; apply elem_of_cons; by right).
  etransitivity; [exact (IH _ Htail)|].
  intros u [Hu|Hu]%elem_of_union; [by apply elem_of_union; left|].
  apply Hd in Hu. apply elem_of_union in Hu as [->%elem_of_singleton|Hu].
  - by apply elem_of_union; left.
  - by apply elem_of_union; right.
Qed.

Lemma deliver_keeps getConfiguration e w :
  KeyedByUri (documents w) ->
  dom (documentSettings (variables w)) ⊆ dom (documents w) ->
  KeyedByUri (documents (deliver getConfiguration e w)) /\
  dom (documentSettings (variables (deliver getConfiguration e w)))
    ⊆ dom (documents (deliver getConfiguration e w)).
Proof.
  intros Hkey Hdom.
  assert (Hput : forall d,
    KeyedByUri (<[uri d := d]> (documents w)) /\
    dom (documentSettings (onDidChangeContent getConfiguration d (variables w)).1)
      ⊆ dom (<[uri d := d]> (documents w))).
  { intros d. split.
    - intros k d'. destruct (decide (uri d = k)) as [<-|Hne].
      + rewrite lookup_insert_eq. by intros [= <-].
      + rewrite lookup_insert_ne by done. apply Hkey.
    - unfold onDidChangeContent. rewrite dom_insert_L.
      pose proof (validateTaclDocument_dom getConfiguration d (variables w)) as Hd.
      intros u Hu. apply Hd in Hu. apply elem_of_union in Hu as [Hu|Hu].
      + apply elem_of_union. by left.
      + apply elem_of_union. right. by apply Hdom. }
  destruct e as [d|d|u|change]; simpl.
  - apply Hput.
  - destruct (documents w !! uri d); [apply Hput|done].
  - destruct (documents w !! u) as [d|] eqn:Hopen; [|done]. simpl.
    rewrite (Hkey _ _ Hopen). split.
    + intros k d'. destruct (decide (u = k)) as [<-|Hne].
      * by rewrite lookup_delete_eq.
      * rewrite lookup_delete_ne by done. apply Hkey.
    + rewrite !dom_delete_L. intros k [Hk Hne]%elem_of_difference.
      apply elem_of_difference. split; [by apply Hdom|done].
  - split; [done|]. unfold didChangeConfiguration.
    etransitivity; [apply (revalidate_dom _ _ (dom (documents w)))|].
    + intros d [[k d'] [-> Hin]]%list_elem_of_fmap. simpl.
      apply elem_of_map_to_list in Hin. rewrite (Hkey _ _ Hin).
      by apply elem_of_dom_2 in Hin.
    + unfold onDidChangeConfiguration.
      destruct (hasConfigurationCapability (variables w)); simpl.
      * rewrite dom_empty_L. intros k [Hk|Hk]%elem_of_union; [done|].
        by apply not_elem_of_empty in Hk.
      * intros k [Hk|Hk]%elem_of_union; [done|by apply Hdom].
Qed.

(** X10: from an empty cache, after any sequence of open, change, close and
    configuration-change events, the cache holds settings only for documents
    that are open. *)
Theorem run_keeps_settings_of_open_documents trace s :
  documentSettings s = ∅ ->
  dom (documentSettings (variables (run trace (mkWorld ∅ s))))
  ⊆ dom (documents (run trace (mkWorld ∅ s))).
Proof.
  intros Hempty.
  cut (forall w, KeyedByUri (documents w) ->
         dom (documentSettings (variables w)) ⊆ dom (documents w) ->
         dom (documentSettings (variables (run trace w)))
           ⊆ dom (documents (run trace w))).
  { intros Hrun. apply Hrun; simpl.
    - intros k d. by rewrite lookup_empty.
    - rewrite Hempty. set_solver. }
  unfold run. induction trace as [|[gc e] trace IH]; intros w Hkey Hdom; [done|].
  simpl. destruct (deliver_keeps gc e w Hkey Hdom). by apply IH.
Qed.

Lemma getDocumentSettings_without_capability getConfiguration getConfiguration' u s :
  hasConfigurationCapability s = false ->
  getDocumentSettings getConfiguration u s
  = getDocumentSettings getConfiguration' u s /\
  hasConfigurationCapability (getDocumentSettings getConfiguration u s).1 = false.
Proof. intros Hcap. unfold getDocumentSettings. by rewrite Hcap. Qed.

Lemma validateTaclDocument_without_capability getConfiguration getConfiguration' d s :
  hasConfigurationCapability s = false ->
  validateTaclDocument getConfiguration d s
  = validateTaclDocument getConfiguration' d s /\
  hasConfigurationCapability (validateTaclDocument getConfiguration d s).1 = false.
Proof.
  intros Hcap.
  destruct (getDocumentSettings_without_capability getConfiguration
              getConfiguration' (uri d) s Hcap) as [Heq Hcap'].
  split.
  - unfold validateTaclDocument. by rewrite Heq.
  - by rewrite validateTaclDocument_state.
Qed.

Lemma revalidate_without_capability getConfiguration getConfiguration'
    (docs : list TextDocument) : forall s : ServerState,
  hasConfigurationCapability s = false ->
  revalidate getConfiguration docs s = revalidate getConfiguration' docs s /\
  hasConfigurationCapability (revalidate getConfiguration docs s).1 = false.
Proof.
  intros s Hcap. rewrite revalidate_state. unfold revalidate.
  generalize (@nil (option (Completion PublishDiagnosticsParams))) at 2 4.
  revert s Hcap.
  induction docs as [|d docs IH]; intros s Hcap out; simpl; [done|].
  destruct (validateTaclDocument_without_capability getConfiguration
              getConfiguration' d s Hcap) as [<- Hcap'].
  destruct (validateTaclDocument getConfiguration d s) as [s1 r]. by apply IH.
Qed.

Lemma deliver_without_capability getConfiguration getConfiguration' e w :
  hasConfigurationCapability (variables w) = false ->
  deliver getConfiguration e w = deliver getConfiguration' e w /\
  hasConfigurationCapability (variables (deliver getConfiguration e w)) = false.
Proof.
  intros Hcap.
  assert (Hput : forall d,
    onDidChangeContent getConfiguration d (variables w)
      = onDidChangeContent getConfiguration' d (variables w) /\
    hasConfigurationCapability
      (onDidChangeContent getConfiguration d (variables w)).1 = false).
  { intros d. unfold onDidChangeContent.
    by apply validateTaclDocument_without_capability. }
  destruct e as [d|d|u|change]; cbn [deliver].
  - destruct (Hput d) as [<- Hc]. by split.
  - destruct (documents w !! uri d); [|done]. destruct (Hput d) as [<- Hc]. by split.
  - by destruct (documents w !! u).
  - cbn [variables]. unfold didChangeConfiguration.
    assert (hasConfigurationCapability
              (onDidChangeConfiguration change (variables w)) = false) as Hcap'.
    { unfold onDidChangeConfiguration. by rewrite Hcap. }
    by destruct (revalidate_without_capability getConfiguration getConfiguration'
                   (all w) _ Hcap') as [<- ->].
Qed.

(** X11: without per-document configuration the client is never consulted:
    two runs over the same events end in the same state whatever the client
    would have answered, and the capability stays off. *)
Theorem run_without_capability trace trace' w :
  hasConfigurationCapability (variables w) = false ->
  trace.*2 = trace'.*2 ->
  run trace w = run trace' w /\
  hasConfigurationCapability (variables (run trace w)) = false.
Proof.
  unfold run. revert trace' w.
  induction trace as [|[gc e] trace IH]; intros [|[gc' e'] trace'] w Hcap Hev;
    try done.
  simpl in *. injection Hev as <- Hev.
  destruct (deliver_without_capability gc gc' e w Hcap) as [<- Hcap'].
  by apply IH.
Qed.

Lemma run_keeps_settings_of_open_documents_witness :
  dom (documentSettings
         (variables (run sampleTrace (mkWorld ∅ (initialState true false)))))
  ⊆ dom (documents (run sampleTrace (mkWorld ∅ (initialState true false)))).
Proof.
  apply (run_keeps_settings_of_open_documents sampleTrace (initialState true false)).
  reflexivity.
Defined.

Lemma run_without_capability_witness :
  run sampleTrace (mkWorld ∅ (initialState false true))
  = run sampleTrace' (mkWorld ∅ (initialState false true)).
Proof.
  apply (run_without_capability sampleTrace sampleTrace'
           (mkWorld ∅ (initialState false true))); reflexivity.
Defined.

(** X12: right after initialisation, a client that announces
    [workspace.configuration] is asked for a document's settings and the
    answer is cached; any other client, one that sends no workspace
    capabilities at all included, gets the default settings and nothing is
    cached. *)
Theorem onInitialize_then_settings params getConfiguration resource :
  let s := server (onInitialize params loaded).1 in
  getDocumentSettings getConfiguration resource s =
  if has (workspace (capabilities params)) configuration
  then (setDocumentSettings {[ resource := getConfiguration resource ]} s,
        getConfiguration resource)
  else (s, Some defaultSettings).
Proof.
  cbv zeta. unfold getDocumentSettings, onInitialize. simpl.
  destruct (has (workspace (capabilities params)) configuration); simpl; [|done].
  by rewrite lookup_empty.
Qed.

(** ** Further properties of completion *)

Lemma onCompletion_data p k it :
  onCompletion p !! k = Some it -> data it = Z.of_nat (S k).
Proof.
  unfold onCompletion.
  do 29 (destruct k as [|k]; [by intros [= <-]|]).
  done.
Qed.

(** X13: the item listed at position [k] of the completion list resolves
    with the detail and documentation of row [k] of the keyword table, and
    resolving it throws when the table has no row [k]. *)
Theorem onCompletion_then_resolve keywordDes p k it :
  onCompletion p !! k = Some it ->
  onCompletionResolve keywordDes it =
  match keywordDes !! k with
  | Some row => Normal (mkItem (label it) (kind it) (data it)
                               (Some (keyword_detail row))
                               (Some (keyword_documentation row)))
  | None => Throw TypeError
  end.
Proof.
  intros Hk%onCompletion_data. unfold onCompletionResolve, arrayGet.
  rewrite Hk. destruct (Z.ltb_spec (Z.of_nat (S k) - 1) 0); [lia|].
  replace (Z.to_nat (Z.of_nat (S k) - 1)) with k by lia.
  done.
Qed.

Lemma onCompletion_then_resolve_witness :
  onCompletionResolve sampleKeywords (item "Given" KindProperty 1) =
    Normal (mkItem (js "Given") (Some KindProperty) 1
                   (Some (js "Step keyword"))
                   (Some (js "Opens a precondition step"))) /\
  onCompletionResolve sampleKeywords (item "empty" KindVariable 26)
    = Throw TypeError.
Proof.
  split.
  - apply (onCompletion_then_resolve sampleKeywords
             (mkParams sampleUri (mkPosition 0 0)) 0). reflexivity.
  - apply (onCompletion_then_resolve sampleKeywords
             (mkParams sampleUri (mkPosition 0 0)) 25). reflexivity.
Defined.

(** X14: resolving returns an item exactly when [data] is between 1 and the
    number of rows of the keyword table; 0, negative ids and ids beyond the
    table throw. *)
Theorem onCompletionResolve_returns_iff keywordDes it :
  (exists it', onCompletionResolve keywordDes it = Normal it') <->
  (1 <= data it <= Z.of_nat (length keywordDes))%Z.
Proof.
  unfold onCompletionResolve, arrayGet.
  destruct (Z.ltb_spec (data it - 1) 0) as [Hneg|Hpos].
  - split; [by intros [? ?]|lia].
  - destruct (keywordDes !! Z.to_nat (data it - 1)) as [row|] eqn:Hget.
    + apply lookup_lt_Some in Hget. split; [lia|eauto].
    + apply lookup_ge_None in Hget. split; [by intros [? ?]|lia].
Qed.

Lemma onCompletionResolve_returns_iff_witness :
  (exists it', onCompletionResolve sampleKeywords (item "Given" KindProperty 1)
               = Normal it') /\
  ~ (exists it', onCompletionResolve sampleKeywords (item "x" KindText 0)
                 = Normal it').
Proof.
  split.
  - apply (proj2 (onCompletionResolve_returns_iff sampleKeywords
                    (item "Given" KindProperty 1))). simpl. lia.
  - intros H.
    apply (proj1 (onCompletionResolve_returns_iff sampleKeywords
                    (item "x" KindText 0))) in H. simpl in H. lia.
Defined.

(** X15: resolving a resolved item again returns it unchanged, and the
    detail and documentation an item already carries have no influence on
    the result. *)
Theorem onCompletionResolve_again keywordDes it it' stale :
  onCompletionResolve keywordDes it = Normal it' ->
  onCompletionResolve keywordDes it' = Normal it' /\
  (label stale = label it -> kind stale = kind it -> data stale = data it ->
   onCompletionResolve keywordDes stale = Normal it').
Proof.
  unfold onCompletionResolve.
  destruct (arrayGet keywordDes (data it - 1)) as [row|] eqn:Hrow; [|done].
  intros [= <-]. simpl. rewrite Hrow. split; [done|].
  intros -> -> ->. by rewrite Hrow.
Qed.

Lemma onCompletionResolve_again_witness :
  let resolved := mkItem (js "Given") (Some KindProperty) 1
                    (Some (js "Step keyword"))
                    (Some (js "Opens a precondition step")) in
  onCompletionResolve sampleKeywords resolved = Normal resolved /\
  onCompletionResolve sampleKeywords
    (mkItem (js "Given") (Some KindProperty) 1 (Some (js "old")) None)
  = Normal resolved.
Proof.
  cbv zeta.
  pose proof (onCompletionResolve_again sampleKeywords
                (item "Given" KindProperty 1) _
                (mkItem (js "Given") (Some KindProperty) 1 (Some (js "old")) None)
                eq_refl) as [H1 H2].
  split; [exact H1|]. apply H2; reflexivity.
Defined.

(** ** Further properties of the hover *)

(** X16: for a hover table in two parts, the rows of the later part win: the
    hover is that of the later part alone when it has a row labelled with
    the word, and that of the earlier part alone when it has none. *)
Theorem provideHover_app dirname later earlier document position token :
  let word := wordAt document position in
  let shown table :=
    contents (provideHover dirname table document position token).2 in
  (Exists (fun x => hover_label x = word) later ->
   shown (earlier ++ later) = shown later) /\
  (Forall (fun x => hover_label x <> word) later ->
   shown (earlier ++ later) = shown earlier).
Proof.
  cbv zeta. unfold provideHover. cbn [snd contents].
  rewrite !foldl_visit, filter_app. split.
  - intros Hex. rewrite last_app.
    destruct (last (filter _ later)) as [e|] eqn:Hlast; [done|].
    apply last_None in Hlast. apply Exists_exists in Hex as (x & Hin & Hx).
    assert (x ∈ filter (fun x => hover_label x = wordAt document position) later)
      as Hf by (by apply list_elem_of_filter).
    rewrite Hlast in Hf. by apply elem_of_nil in Hf.
  - intros Hall. by rewrite (filter_no_match _ _ Hall), app_nil_r.
Qed.

Lemma provideHover_app_witness :
  contents (provideHover sampleDirname
              ([mkHoverEntry (js "visible") (js "Shown on screen")] ++ sampleHovers)
              sampleEditorDocument (mkPosition 0 9) (mkToken false)).2
  = contents (provideHover sampleDirname sampleHovers sampleEditorDocument
                (mkPosition 0 9) (mkToken false)).2 /\
  contents (provideHover sampleDirname
              (sampleHovers ++ [mkHoverEntry (js "hidden") (js "Not shown")])
              sampleEditorDocument (mkPosition 0 9) (mkToken false)).2
  = contents (provideHover sampleDirname sampleHovers sampleEditorDocument
                (mkPosition 0 9) (mkToken false)).2.
Proof.
  split.
  - apply (proj1 (provideHover_app sampleDirname sampleHovers
                    [mkHoverEntry (js "visible") (js "Shown on screen")]
                    sampleEditorDocument (mkPosition 0 9) (mkToken false))).
    apply Exists_cons_hd. reflexivity.
  - apply (proj2 (provideHover_app sampleDirname
                    [mkHoverEntry (js "hidden") (js "Not shown")] sampleHovers
                    sampleEditorDocument (mkPosition 0 9) (mkToken false))).
    repeat constructor. discriminate.
Defined.

(** X17: the hover depends only on the rows labelled with the word under the
    cursor, in their order: tables with the same such rows give the same
    hover, whatever the other rows, the file's directory and the token. *)
Theorem provideHover_only_matching_rows
    dirname dirname' table table' document position token token' :
  filter (fun x => hover_label x = wordAt document position) table
  = filter (fun x => hover_label x = wordAt document position) table' ->
  (provideHover dirname table document position token).2
  = (provideHover dirname' table' document position token').2.
Proof.
  intros Hsame. unfold provideHover. cbn [snd].
  by rewrite !foldl_visit, Hsame.
Qed.

Lemma provideHover_only_matching_rows_witness :
  (provideHover sampleDirname sampleHovers sampleEditorDocument
     (mkPosition 0 9) (mkToken false)).2
  = (provideHover (fun p => p)
       [mkHoverEntry (js "visible") (js "The element is displayed");
        mkHoverEntry (js "visible") (js "The element can be seen")]
       sampleEditorDocument (mkPosition 0 9) (mkToken true)).2.
Proof.
  apply (provideHover_only_matching_rows sampleDirname (fun p => p) sampleHovers).
  reflexivity.
Defined.

Lemma validateTaclDocument_caches
    (getConfiguration : JsString -> option ExampleSettings) doc s :
  hasConfigurationCapability s = true ->
  hasConfigurationCapability (validateTaclDocument getConfiguration doc s).1 = true /\
  dom (documentSettings (validateTaclDocument getConfiguration doc s).1)
  = {[uri doc]} ∪ dom (documentSettings s).
Proof.
  intros Hcap. rewrite validateTaclDocument_state, getDocumentSettings_state, Hcap.
  destruct (documentSettings s !! uri doc) eqn:Hget.
  - split; [done|]. apply elem_of_dom_2 in Hget.
    apply set_eq. intros u. rewrite elem_of_union, elem_of_singleton.
    split; [tauto|]. by intros [->|?].
  - split; [done|]. simpl. by rewrite dom_insert_L.
Qed.

Lemma revalidate_caches (getConfiguration : JsString -> option ExampleSettings)
    (docs : list TextDocument) : forall s : ServerState,
  hasConfigurationCapability s = true ->
  hasConfigurationCapability (revalidate getConfiguration docs s).1 = true /\
  forall u, u ∈ dom (documentSettings (revalidate getConfiguration docs s).1) <->
            u ∈ dom (documentSettings s) \/ exists d, d ∈ docs /\ uri d = u.
Proof.
  intros s. rewrite revalidate_state. revert s.
  induction docs as [|d docs IH]; intros s Hcap; simpl.
  - split; [done|]. intros u. split; [by left|].
    intros [?|(d & Hd & _)]; [done|]. by apply elem_of_nil in Hd.
  - destruct (validateTaclDocument_caches getConfiguration d s Hcap) as [Hcap' Hdom].
    destruct (IH _ Hcap') as [Hcap'' Hiff]. split; [done|].
    intros u. rewrite Hiff, Hdom, elem_of_union, elem_of_singleton. split.
    + intros [[->|?]|(d' & Hd' & <-)].
      * right. exists d. split; [|done]. apply elem_of_cons. by left.
      * by left.
      * right. exists d'. split; [|done]. apply elem_of_cons. by right.
    + intros [?|(d' & [->|Hd']%elem_of_cons & <-)].
      * left. by right.
      * left. by left.
      * right. eauto.
Qed.

Lemma deliver_caches getConfiguration e w :
  hasConfigurationCapability (variables w) = true ->
  KeyedByUri (documents w) ->
  dom (documentSettings (variables w)) = dom (documents w) ->
  hasConfigurationCapability (variables (deliver getConfiguration e w)) = true /\
  KeyedByUri (documents (deliver getConfiguration e w)) /\
  dom (documentSettings (variables (deliver getConfiguration e w)))
    = dom (documents (deliver getConfiguration e w)).
Proof.
  intros Hcap Hkey Hdom.
  assert (Hsub : dom (documentSettings (variables w)) ⊆ dom (documents w))
    by (by rewrite Hdom).
  destruct (deliver_keeps getConfiguration e w Hkey Hsub) as [Hkey' _].
  assert (Hput : forall d,
    hasConfigurationCapability
      (onDidChangeContent getConfiguration d (variables w)).1 = true /\
    dom (documentSettings (onDidChangeContent getConfiguration d (variables w)).1)
      = dom (<[uri d := d]> (documents w))).
  { intros d. unfold onDidChangeContent.
    destruct (validateTaclDocument_caches getConfiguration d _ Hcap) as [-> ->].
    by rewrite dom_insert_L, Hdom. }
  split; [|split; [done|]]; destruct e as [d|d|u|change]; simpl.
  - apply Hput.
  - destruct (documents w !! uri d); [apply Hput|done].
  - by destruct (documents w !! u).
  - unfold didChangeConfiguration.
    apply revalidate_caches. unfold onDidChangeConfiguration. by rewrite Hcap.
  - apply Hput.
  - destruct (documents w !! uri d); [apply Hput|done].
  - destruct (documents w !! u) as [d|] eqn:Hopen; [|done]. simpl.
    by rewrite (Hkey _ _ Hopen), !dom_delete_L, Hdom.
  - unfold didChangeConfiguration. apply set_eq. intros u.
    assert (hasConfigurationCapability
              (onDidChangeConfiguration change (variables w)) = true) as Hcap'.
    { unfold onDidChangeConfiguration. by rewrite Hcap. }
    destruct (revalidate_caches getConfiguration (all w) _ Hcap') as [_ ->].
    unfold onDidChangeConfiguration at 1. rewrite Hcap. simpl.
    rewrite dom_empty_L. split.
    + intros [Hin|(d & Hd & <-)]; [by apply not_elem_of_empty in Hin|].
      apply list_elem_of_fmap in Hd as ([k d'] & -> & Hin). simpl.
      apply elem_of_map_to_list in Hin. rewrite (Hkey _ _ Hin).
      by apply elem_of_dom_2 in Hin.
    + intros [d Hd]%elem_of_dom. right. exists d. split; [|by apply Hkey].
      apply list_elem_of_fmap. exists (u, d). split; [done|].
      by apply elem_of_map_to_list.
Qed.

(** X18: with per-document configuration, from an empty cache and after any
    sequence of events, the cache holds settings for exactly the open
    documents. *)
Theorem run_caches_exactly_open_documents trace s :
  hasConfigurationCapability s = true ->
  documentSettings s = ∅ ->
  dom (documentSettings (variables (run trace (mkWorld ∅ s))))
  = dom (documents (run trace (mkWorld ∅ s))).
Proof.
  intros Hcap Hempty.
  cut (forall w, hasConfigurationCapability (variables w) = true ->
         KeyedByUri (documents w) ->
         dom (documentSettings (variables w)) = dom (documents w) ->
         dom (documentSettings (variables (run trace w)))
           = dom (documents (run trace w))).
  { intros Hrun. apply Hrun; simpl; [done| |].
    - intros k d. by rewrite lookup_empty.
    - by rewrite Hempty, !dom_empty_L. }
  unfold run. induction trace as [|[gc e] trace IH]; intros w Hc Hkey Hdom; [done|].
  simpl. destruct (deliver_caches gc e w Hc Hkey Hdom) as (? & ? & ?). by apply IH.
Qed.

Lemma run_caches_exactly_open_documents_witness :
  dom (documentSettings
         (variables (run sampleTrace (mkWorld ∅ (initialState true false)))))
  = dom (documents (run sampleTrace (mkWorld ∅ (initialState true false)))).
Proof.
  apply (run_caches_exactly_open_documents sampleTrace (initialState true false));
    reflexivity.
Defined.
